(** * remo-python: the HTTP client of [remo/api.py]

    A shallow embedding of the URL builder, the session (login and
    authenticated requests), the upload progress tracker and the bulk upload
    pipeline, followed by the properties proved about them.

    Python strings are modelled as [string] (a sequence of bytes, the UTF-8
    encoding of the text): the characters the code looks for ([/], [,], [?])
    are ASCII, so searching for them byte by byte agrees with Python's search
    by code point. Python integers are [Z]. *)

From Stdlib Require Import ZArith List String Ascii Bool Lia.
From Stdlib Require Import Numbers.DecimalString.
From Stdlib Require Import Floats.PrimFloat Floats.FloatOps Floats.SpecFloat.
From Stdlib Require Import Numbers.Cyclic.Int63.Uint63.
Import ListNotations.

Set Warnings "-register-all".

Open Scope string_scope.
Open Scope Z_scope.

(* ================================================================== *)
(** * Python values and exceptions *)

(** The scalars that reach [_build_url] as path segments, as query values
    and as elements of a list query value: [None], [bool], [int] and [str].
    Other objects (floats, nested containers) are outside the model. *)
Inductive atom : Type :=
| ANone
| ABool (b : bool)
| AInt (n : Z)
| AStr (s : string).

(** A keyword argument of [_build_url]: a scalar or a [list] of scalars. *)
Inductive qval : Type :=
| QAtom (a : atom)
| QList (l : list atom).

(** A parsed JSON document, the result of [Response.json()]. Python's [None]
    is JSON's [null]. *)
Inductive json : Type :=
| JNull
| JBool (b : bool)
| JNum (n : Z)
| JStr (s : string)
| JArr (l : list json)
| JObj (d : list (string * json)).

(** The exceptions the modelled code raises. [Exception v] is the plain
    [Exception(v)] of [_login] and [_auth_header]. *)
Inductive exn : Type :=
| IndexError_list        (* list index out of range *)
| IndexError_string      (* string index out of range *)
| ZeroDivisionError
| ValueError
| OverflowError
| AttributeError
| JSONDecodeError
| FileNotFoundError (path : string)
| ConnectionError
| Exception (v : json).

Inductive res (A : Type) : Type :=
| Ok (a : A)
| Raise (e : exn).
Arguments Ok {A} a.
Arguments Raise {A} e.

Definition res_bind {A B} (r : res A) (k : A -> res B) : res B :=
  match r with
  | Ok a => k a
  | Raise e => Raise e
  end.

Declare Scope res_scope.
Delimit Scope res_scope with res.
Notation "'try!' x <- r ; k" := (res_bind r (fun x => k))
  (at level 10, x name, r at level 100, k at level 200) : res_scope.

(* ================================================================== *)
(** * String operations of the Python runtime *)

Definition slash : ascii := "/"%char.
Definition comma : ascii := ","%char.
Definition qmark : ascii := "?"%char.

(** [c in s] for a one-character [c]. *)
Fixpoint contains (c : ascii) (s : string) : bool :=
  match s with
  | EmptyString => false
  | String a s' => Ascii.eqb a c || contains c s'
  end.

(** [s.lstrip(c)]. *)
Fixpoint lstrip (c : ascii) (s : string) : string :=
  match s with
  | EmptyString => EmptyString
  | String a s' => if Ascii.eqb a c then lstrip c s' else s
  end.

(** [s.rstrip(c)]. *)
Fixpoint rstrip (c : ascii) (s : string) : string :=
  match s with
  | EmptyString => EmptyString
  | String a s' =>
      match rstrip c s' with
      | EmptyString => if Ascii.eqb a c then EmptyString else String a EmptyString
      | r => String a r
      end
  end.

(** [s.strip(c)]. *)
Definition strip (c : ascii) (s : string) : string := rstrip c (lstrip c s).

(** [s[-1]], which raises [IndexError] on the empty string. *)
Fixpoint last_char (s : string) : res ascii :=
  match s with
  | EmptyString => Raise IndexError_string
  | String a EmptyString => Ok a
  | String _ s' => last_char s'
  end.

(** [l[-1]], which raises [IndexError] on the empty list. *)
Fixpoint last_item {A} (l : list A) : res A :=
  match l with
  | [] => Raise IndexError_list
  | [a] => Ok a
  | _ :: l' => last_item l'
  end.

(** [s.split(c)]: never the empty list, [''.split(',') == ['']]. *)
Fixpoint split (c : ascii) (s : string) : list string :=
  match s with
  | EmptyString => [EmptyString]
  | String a s' =>
      if Ascii.eqb a c then EmptyString :: split c s'
      else match split c s' with
           | h :: t => String a h :: t
           | [] => [String a EmptyString]
           end
  end.

(** [sep.join(l)]. *)
Definition join (sep : string) (l : list string) : string := String.concat sep l.

(** [str(n)] for an [int]. *)
Definition str_of_int (n : Z) : string := NilZero.string_of_int (Z.to_int n).

(** [str(a)], which is also [format(a, '')] for these types. *)
Definition py_str (a : atom) : string :=
  match a with
  | ANone => "None"
  | ABool true => "True"
  | ABool false => "False"
  | AInt n => str_of_int n
  | AStr s => s
  end.

(** Truth value of a scalar and of a keyword argument. *)
Definition truthy_atom (a : atom) : bool :=
  match a with
  | ANone => false
  | ABool b => b
  | AInt n => negb (n =? 0)
  | AStr s => negb (String.eqb s "")
  end.

Definition truthy (v : qval) : bool :=
  match v with
  | QAtom a => truthy_atom a
  | QList l => match l with [] => false | _ => true end
  end.

(** ** [urllib.parse.quote] with its default [safe='/'] (Python 3.7 on,
    where [~] is among the characters never quoted) *)

Definition in_range (lo hi : N) (a : ascii) : bool :=
  let n := N_of_ascii a in (N.leb lo n && N.leb n hi)%bool.

(** Bytes left as they are: ASCII letters, digits, [_.-~] and [/]. *)
Definition quote_safe (a : ascii) : bool :=
  in_range 65 90 a || in_range 97 122 a || in_range 48 57 a
  || contains a "_.-~" || Ascii.eqb a slash.

Definition hex_digit (n : N) : ascii :=
  match String.get (N.to_nat n) "0123456789ABCDEF" with
  | Some c => c
  | None => "0"%char
  end.

(** ['%{:02X}'.format(b)]. *)
Definition percent_byte (a : ascii) : string :=
  let n := N_of_ascii a in
  String "%"%char (String (hex_digit (N.div n 16)) (String (hex_digit (N.modulo n 16)) EmptyString)).

Fixpoint quote (s : string) : string :=
  match s with
  | EmptyString => EmptyString
  | String a s' =>
      (if quote_safe a then String a EmptyString else percent_byte a) ++ quote s'
  end.

(* ================================================================== *)
(** * [BaseAPI._build_url] *)

Definition is_none (a : atom) : bool :=
  match a with ANone => true | _ => false end.

(** Keyword arguments are an insertion-ordered mapping with distinct keys. *)
Definition kwargs_t : Type := list (string * qval).
Bind Scope list_scope with kwargs_t.

Fixpoint kw_get (k : string) (kw : kwargs_t) : option qval :=
  match kw with
  | [] => None
  | (k', v) :: kw' => if String.eqb k' k then Some v else kw_get k kw'
  end.

Definition kw_del (k : string) (kw : kwargs_t) : kwargs_t :=
  filter (fun e => negb (String.eqb (fst e) k)) kw.

(** [kwargs.pop(k, default)]: the value and the mapping without the key. *)
Definition kw_pop (k : string) (default : qval) (kw : kwargs_t) : qval * kwargs_t :=
  match kw_get k kw with
  | Some v => (v, kw_del k kw)
  | None => (default, kw)
  end.

(** ['{}={}'.format(key, v)]. *)
Definition key_eq (key v : string) : string := key ++ "=" ++ v.

(** What one pass of the [for key, val in kwargs.items()] loop appends to
    [params]. *)
Definition render_param (key : string) (val : qval) : list string :=
  match val with
  | QAtom (AStr s) =>
      if contains comma s
      then [key_eq key (join "," (map quote (split comma s)))]
      else [key_eq key (quote s)]
  | QList l => [key_eq key (join "," (map (fun v => quote (py_str v)) l))]
  | QAtom a => if truthy_atom a then [key_eq key (py_str a)] else []
  end.

Definition render_params (kw : kwargs_t) : list string :=
  flat_map (fun e => render_param (fst e) (snd e)) kw.

Definition _build_url (args : list atom) (kwargs : kwargs_t) : res string :=
  let args := filter (fun arg => negb (is_none arg)) args in
  (try! last <- last_item args ;
   try! c <- last_char (py_str last) ;
   let '(tail_slash, kwargs) :=
     kw_pop "tail_slash" (QAtom (ABool (Ascii.eqb c slash))) kwargs in
   let url := join "/" (map (fun x => strip slash (py_str x)) args) in
   let params := render_params kwargs in
   match params with
   | _ :: _ =>
       let joined_params := join "&" params in
       let separator := if contains qmark url then "&" else "/?" in
       Ok (url ++ separator ++ joined_params)
   | [] =>
       if negb (contains qmark url) && truthy tail_slash
       then Ok (url ++ "/")
       else Ok url
   end)%res.

(* ================================================================== *)
(** * Floating point: Python's [float] is IEEE-754 binary64 *)

(** [float(n)]: the double nearest to the integer [n]. *)
Definition float_of_int (n : Z) : float :=
  SF2Prim (binary_normalize prec emax n 0 false).

(** [int(x)]: truncation towards zero; [nan] and the infinities raise. *)
Definition int_of_float (x : float) : res Z :=
  match Prim2SF x with
  | S754_zero _ => Ok 0
  | S754_finite s m e =>
      let a := if 0 <=? e then Z.pos m * 2 ^ e else Z.pos m / 2 ^ (- e) in
      Ok (if s then - a else a)
  | S754_infinity _ => Raise OverflowError
  | S754_nan => Raise ValueError
  end.

(** [x / y] on floats: Python raises where IEEE would give an infinity or
    [nan] for a zero divisor. *)
Definition float_div (x y : float) : res float :=
  if PrimFloat.eqb y PrimFloat.zero then Raise ZeroDivisionError
  else Ok (PrimFloat.div x y).

(** [a / b] on ints, true division: the double nearest to the exact
    quotient, ties to even, whatever the size of the operands (the exact
    quotient is rounded once, by the division of the specification of
    binary64 applied to the two integers as they are). A zero divisor
    raises [ZeroDivisionError], a quotient too large for a double
    [OverflowError]; zero divided by a negative number is [-0.0]. *)
Definition int_true_div (a b : Z) : res float :=
  if b =? 0 then Raise ZeroDivisionError
  else
    match Z.abs a, Z.abs b with
    | Zpos ma, Zpos mb =>
        match SFdiv prec emax (S754_finite (a <? 0) ma 0) (S754_finite (b <? 0) mb 0) with
        | S754_infinity _ => Raise OverflowError
        | q => Ok (SF2Prim q)
        end
    | _, _ => Ok (SF2Prim (S754_zero (b <? 0)))
    end.

(** The literal [1e-3]. *)
Definition one_milli : float := 0x1.0624dd2f1a9fcp-10%float.

(** A [timedelta] holds between -999999999 and 999999999 days, that is, from
    [-86400 * 999999999] seconds up to, and not including, [86400 * 10^9]. *)
Definition timedelta_min : float := float_of_int (- (86400 * 999999999)).
Definition timedelta_sup : float := float_of_int (86400 * 1000000000).

(** [timedelta(seconds=x)], kept as its number of seconds. *)
Definition timedelta_seconds (x : float) : res float :=
  if negb (PrimFloat.eqb x x) then Raise ValueError
  else if PrimFloat.leb timedelta_min x && PrimFloat.ltb x timedelta_sup then Ok x
  else Raise OverflowError.

(* ================================================================== *)
(** * The world outside the client: network, clock, console *)

Inductive method : Type := GET | POST.

Inductive headers : Type :=
| NoHeaders
| Authorization (token : json).   (* {'Authorization': 'Token {}'.format(token)} *)

Inductive payload : Type :=
| NoPayload
| Form (data : list (string * string))
| Multipart (files : list string) (data : list (string * atom)).

Record Request : Type := mkRequest {
  rq_method : method;
  rq_url : string;
  rq_headers : headers;
  rq_payload : payload
}.

(** [r.json()] raises when the body is not JSON: [resp_body = None]. *)
Record Response : Type := mkResponse {
  status_code : Z;
  text : string;
  resp_body : option json
}.

Inductive net_result : Type :=
| Refused                     (* requests.exceptions.ConnectionError *)
| Answered (r : Response).

(** The lines printed by the modelled code. *)
Record report : Type := mkReport {
  r_percentage : Z;
  r_current : Z;
  r_total : Z;
  r_elapsed : float;
  r_speed : float;
  r_eta : float
}.

Inductive line : Type :=
| FailedConnect                                     (* 'ERROR: Failed connect to server' *)
| PossibleError (body : string) (files : list string)
| Progress (r : report).

Record World : Type := mkWorld {
  sent : list Request;      (* every request handed to [requests], oldest first *)
  stdout : list line;       (* printed lines, oldest first *)
  reads : nat               (* how often the clock has been read *)
}.

Definition world0 : World := mkWorld [] [] 0.

(** A computation with effects on a state [S] that may raise: the effects
    done before the exception stay. *)
Definition M (S A : Type) : Type := S -> res A * S.

Definition ret {S A} (a : A) : M S A := fun s => (Ok a, s).
Definition raise {S A} (e : exn) : M S A := fun s => (Raise e, s).
Definition bind {S A B} (m : M S A) (k : A -> M S B) : M S B :=
  fun s => match m s with
           | (Ok a, s') => k a s'
           | (Raise e, s') => (Raise e, s')
           end.
Definition lift_res {S A} (r : res A) : M S A := fun s => (r, s).
Definition modify {S} (f : S -> S) : M S unit := fun s => (Ok tt, f s).

(** Run a computation on the first, or on the second, half of a pair. *)
Definition on_fst {S T A} (m : M S A) : M (S * T) A :=
  fun st => let '(r, s') := m (fst st) in (r, (s', snd st)).

Declare Scope m_scope.
Delimit Scope m_scope with M.
Notation "'do' x <- m ; k" := (bind m (fun x => k))
  (at level 10, x name, m at level 100, k at level 200) : m_scope.
Notation "'run' m ; k" := (bind m (fun _ => k))
  (at level 10, m at level 100, k at level 200) : m_scope.

Definition print (l : line) : M World unit :=
  modify (fun w => mkWorld (sent w) (stdout w ++ [l]) (reads w)).

(* ================================================================== *)
(** * [UploadStatus] *)

Record UploadStatus : Type := mkStatus {
  total_count : Z;
  current_count : Z;
  start : Z;                 (* [datetime.now()] at creation, microseconds *)
  reported_progress : Z
}.

Definition update (count : Z) (st : UploadStatus) : UploadStatus :=
  mkStatus (total_count st) (current_count st + count) (start st) (reported_progress st).

Definition set_reported (p : Z) (st : UploadStatus) : UploadStatus :=
  mkStatus (total_count st) (current_count st) (start st) p.

(** [int(self.current_count / self.total_count * 100)]. *)
Definition percentage (st : UploadStatus) : res Z :=
  (try! q <- int_true_div (current_count st) (total_count st) ;
   int_of_float (PrimFloat.mul q (float_of_int 100)))%res.

(** [(now - start).seconds]: the seconds field of the normalised
    [timedelta], between 0 and 86399; days and microseconds are dropped. *)
Definition timedelta_dot_seconds (now start : Z) : Z :=
  ((now - start) / 1000000) mod 86400.

(** The values formatted into the progress line, computed as the body of
    the [if] does. *)
Definition make_report (p now : Z) (st : UploadStatus) : res report :=
  (let elapsed := PrimFloat.add (float_of_int (timedelta_dot_seconds now (start st))) one_milli in
   try! avg_speed <- float_div (float_of_int (current_count st)) elapsed ;
   try! eta_s <- float_div (float_of_int (total_count st - current_count st)) avg_speed ;
   try! eta <- timedelta_seconds eta_s ;
   Ok (mkReport p (current_count st) (total_count st) elapsed avg_speed eta))%res.

(** [os.path.getsize] and [open(path, 'rb')] on a file system given by the
    size of each existing file. *)
Definition os_getsize (fs : string -> option Z) (path : string) : res Z :=
  match fs path with
  | Some n => Ok n
  | None => Raise (FileNotFoundError path)
  end.

Definition open_rb (fs : string -> option Z) (path : string) : res string :=
  match fs path with
  | Some _ => Ok path
  | None => Raise (FileNotFoundError path)
  end.

(** [[f(x) for x in l]] for an [f] that may raise. *)
Fixpoint map_res {A B} (f : A -> res B) (l : list A) : res (list B) :=
  match l with
  | [] => Ok []
  | x :: l' =>
      (try! y <- f x ;
       try! ys <- map_res f l' ;
       Ok (y :: ys))%res
  end.

(** [d[k] = v] on an insertion-ordered dict. *)
Fixpoint dict_set {V} (k : string) (v : V) (d : list (string * V)) : list (string * V) :=
  match d with
  | [] => [(k, v)]
  | (k', v') :: d' =>
      if String.eqb k' k then (k, v) :: d' else (k', v') :: dict_set k v d'
  end.

(** [j.get(k)] on a parsed document: only a dict has [get]. *)
Fixpoint dict_get (k : string) (d : list (string * json)) : json :=
  match d with
  | [] => JNull
  | (k', v) :: d' => if String.eqb k' k then v else dict_get k d'
  end.

Definition json_get (k : string) (j : json) : res json :=
  match j with
  | JObj d => Ok (dict_get k d)
  | _ => Raise AttributeError
  end.

Definition resp_json (r : Response) : res json :=
  match resp_body r with
  | Some j => Ok j
  | None => Raise JSONDecodeError
  end.

(** [http.HTTPStatus.OK]. *)
Definition HTTP_OK : Z := 200.

Definition json_is_none (j : json) : bool :=
  match j with JNull => true | _ => false end.

(** The client object: [self.server] and [self.token]. *)
Record BaseAPI : Type := mkAPI {
  server : atom;
  token : json
}.

(** [bulk_size] of [split_files_by_size]. *)
Definition bulk_size : Z := 8 * 1024 * 1024.

Section Client.

(** The remote end: what the network gives for a request, after the
    requests sent before it. *)
Variable network : list Request -> Request -> net_result.

(** [clock k] is what the [k]-th call of [datetime.now()] returns, in
    microseconds. *)
Variable clock : nat -> Z.

(** The local files: the size of each path that exists. *)
Variable fs : string -> option Z.

(** The endpoints of [remo/endpoints.py], whatever they are:
    [backend.login] and [backend.dataset_upload.format(dataset_id)]. *)
Variable backend_login : atom.
Variable backend_dataset_upload : atom -> atom.

(** [FileResolver(files_to_upload, flag).resolve()] of [remo/utils.py],
    whatever it does: the list of files, or what it raises. *)
Variable resolve : list string -> bool -> res (list string).

Definition now : M World Z :=
  fun w => (Ok (clock (reads w)), mkWorld (sent w) (stdout w) (S (reads w))).

(** [requests.post] / [requests.get]: the request goes out, and either the
    connection fails or a response comes back. *)
Definition requests_send (rq : Request) : M World Response :=
  fun w =>
    let w' := mkWorld (sent w ++ [rq]) (stdout w) (reads w) in
    match network (sent w) rq with
    | Refused => (Raise ConnectionError, w')
    | Answered r => (Ok r, w')
    end.

(** ** [UploadStatus] *)

Definition UploadStatus_init (total : Z) : M World UploadStatus :=
  (do t <- now ;
   ret (mkStatus total 0 t 0))%M.

Definition progress : M (World * UploadStatus) unit :=
  fun ws =>
    let st := snd ws in
    (do percentage <- lift_res (percentage st) ;
     run (if percentage >? reported_progress st
          then (do t <- on_fst now ;
                do r <- lift_res (make_report percentage t st) ;
                on_fst (print (Progress r)))
          else ret tt) ;
     modify (fun ws => (fst ws, set_reported percentage (snd ws))))%M ws.

(** ** [BaseAPI] *)

Definition url (self : BaseAPI) (endpoint : atom) (args : list atom) (kwargs : kwargs_t)
  : res string :=
  _build_url (server self :: endpoint :: args) kwargs.

Definition _is_authenticated (self : BaseAPI) : bool :=
  negb (json_is_none (token self)).

Definition _auth_header (self : BaseAPI) : res headers :=
  if negb (_is_authenticated self)
  then Raise (Exception (JStr "Not authenticated"))
  else Ok (Authorization (token self)).

(** The arguments of [post] and [get] are passed on as they are; the
    header is computed before [requests] is called. *)
Definition post (self : BaseAPI) (u : string) (body : payload) : M World Response :=
  (do h <- lift_res (_auth_header self) ;
   requests_send (mkRequest POST u h body))%M.

Definition get (self : BaseAPI) (u : string) : M World Response :=
  (do h <- lift_res (_auth_header self) ;
   requests_send (mkRequest GET u h NoPayload))%M.

Definition _login (self : BaseAPI) (email password : string) : M World BaseAPI :=
  fun w =>
    match url self backend_login [] [] with
    | Raise e => (Raise e, w)
    | Ok u =>
        match requests_send
                (mkRequest POST u NoHeaders (Form [("password", password); ("email", email)])) w
        with
        | (Raise ConnectionError, w1) =>
            let '(_, w2) := print FailedConnect w1 in (Ok self, w2)
        | (Raise e, w1) => (Raise e, w1)
        | (Ok resp, w1) =>
            if negb (status_code resp =? HTTP_OK) then
              match resp_json resp with
              | Ok j => (Raise (Exception j), w1)
              | Raise e => (Raise e, w1)
              end
            else
              match res_bind (resp_json resp) (json_get "key") with
              | Ok k => (Ok (mkAPI (server self) k), w1)
              | Raise e => (Raise e, w1)
              end
        end
    end.

(** [BaseAPI.__init__]. *)
Definition BaseAPI_init (srv : atom) (email password : string) : M World BaseAPI :=
  _login (mkAPI srv JNull) email password.

(** ** [API]: the upload pipeline *)

Fixpoint split_loop (files : list string) (groups : list (list string))
         (bulk : list string) (total_size : Z) : res (list (list string)) :=
  match files with
  | [] => Ok (match bulk with [] => groups | _ => (groups ++ [bulk])%list end)
  | path :: rest =>
      (try! sz <- os_getsize fs path ;
       let total_size := total_size + sz in
       let bulk := (bulk ++ [path])%list in
       if total_size >=? bulk_size
       then split_loop rest (groups ++ [bulk])%list [] 0
       else split_loop rest groups bulk total_size)%res
  end.

Definition split_files_by_size (files : list string) : res (list (list string)) :=
  split_loop files [] [] 0.

(** The form fields sent with a batch. *)
Definition upload_data (annotation_task : atom) (class_encoding : option (list (string * atom)))
  : list (string * atom) :=
  let data := if truthy_atom annotation_task
              then dict_set "annotation_task" annotation_task [] else [] in
  match class_encoding with
  | Some enc =>
      fold_left (fun d kv => dict_set ("class_encoding_" ++ fst kv) (snd kv) d) enc data
  | None => data
  end.

Definition upload_files (self : BaseAPI) (dataset_id : atom) (files_to_upload : list string)
           (annotation_task folder_id annotation_set_id : atom)
           (class_encoding : option (list (string * atom)))
  : M (World * UploadStatus) json :=
  (do files <- lift_res (map_res (open_rb fs) files_to_upload) ;
   let data := upload_data annotation_task class_encoding in
   do u <- lift_res (url self (backend_dataset_upload dataset_id) []
                         [("folder_id", QAtom folder_id);
                          ("annotation_set_id", QAtom annotation_set_id)]) ;
   do r <- on_fst (post self u (Multipart files data)) ;
   run (if negb (status_code r =? HTTP_OK)
        then on_fst (print (PossibleError (text r) files_to_upload))
        else ret tt) ;
   run modify (fun ws => (fst ws, update (Z.of_nat (List.length files)) (snd ws))) ;
   run progress ;
   lift_res (resp_json r))%M.

(** The tasks that [ThreadPoolExecutor(1).map(f, groups)] submits: the
    single worker runs them one after the other in the order of [groups];
    what a task returns or raises is kept in its future, and the next task
    runs. The list is that of the futures once all are done, which they are
    when the [with] block is left. *)
Fixpoint submit_all {S A B} (f : A -> M S B) (l : list A) (s : S) : list (res B) * S :=
  match l with
  | [] => ([], s)
  | x :: l' =>
      let '(r, s1) := f x s in
      let '(rs, s2) := submit_all f l' s1 in
      (r :: rs, s2)
  end.

(** The iterator that [map] returns, as what a reader gets from it: the
    results of the futures in order, up to the first future that holds an
    exception; that exception is raised to the reader and the iterator is
    exhausted, so that the results after it cannot be read. *)
Fixpoint result_iterator {B} (futures : list (res B)) : list (res B) :=
  match futures with
  | [] => []
  | Ok b :: rest => Ok b :: result_iterator rest
  | Raise e :: _ => [Raise e]
  end.

(** [ThreadPoolExecutor(1).map(f, groups)] followed by the end of the
    [with] block: every task has run, and the iterator over their results
    is returned. *)
Definition executor_map {S A B} (f : A -> M S B) (l : list A) (s : S) : list (res B) * S :=
  let '(futures, s') := submit_all f l s in
  (result_iterator futures, s').

(** [bulk_upload_files] returns the iterator of [map]: a list whose items
    are read in order and which ends with the first exception, if any. *)

Definition bulk_upload_files (self : BaseAPI) (dataset_id : atom)
           (files_to_upload : list string)
           (annotation_task folder_id annotation_set_id : atom)
           (class_encoding : option (list (string * atom)))
  : M World (list (res json)) :=
  fun w =>
    match res_bind (resolve files_to_upload (negb (is_none annotation_task)))
                   (fun files => res_bind (split_files_by_size files)
                                          (fun groups => Ok (files, groups)))
    with
    | Raise e => (Raise e, w)
    | Ok (files, groups) =>
        let '(r, w1) := UploadStatus_init (Z.of_nat (List.length files)) w in
        match r with
        | Raise e => (Raise e, w1)
        | Ok status =>
            let '(results, ws) :=
              executor_map
                (fun bulk => upload_files self dataset_id bulk annotation_task folder_id
                                          annotation_set_id class_encoding)
                groups (w1, status) in
            (Ok results, fst ws)
        end
    end.

End Client.

(* ================================================================== *)
(** * Notions used to state the properties *)

(** [s.endswith(c)]. *)
Definition ends_with (c : ascii) (s : string) : bool :=
  match last_char s with
  | Ok a => Ascii.eqb a c
  | Raise _ => false
  end.

(** The positional arguments that are not [None]. *)
Definition segments (args : list atom) : list atom :=
  filter (fun arg => negb (is_none arg)) args.

(** The segments, each stripped of its outer slashes, joined by [/]. *)
Definition joined_path (args : list atom) : string :=
  join "/" (map (fun x => strip slash (py_str x)) (segments args)).

(** The sum of the sizes of the files of a batch. *)
Definition batch_size (fs : string -> option Z) (g : list string) : Z :=
  fold_right (fun p acc => match fs p with Some n => n + acc | None => acc end) 0 g.

(** A batch that the loop closed: its size reached [bulk_size], and did so
    only with its last file. *)
Definition closed_batch (fs : string -> option Z) (g : list string) : Prop :=
  bulk_size <= batch_size fs g /\
  forall p q, g = (p ++ q)%list -> q <> [] -> batch_size fs p < bulk_size.

(** A batch flushed after the loop: not empty and below [bulk_size]. *)
Definition trailing_batch (fs : string -> option Z) (g : list string) : Prop :=
  g <> [] /\ forall p q, g = (p ++ q)%list -> batch_size fs p < bulk_size.

(** The exact percentage the formula denotes over the rationals:
    [floor(current_count / total_count * 100)]. *)
Definition exact_percentage (st : UploadStatus) : Z :=
  (current_count st * 100) / total_count st.

(** The shape of the result of [split_files_by_size]: closed batches,
    followed by at most one trailing batch. *)
Inductive batches (fs : string -> option Z) : list (list string) -> Prop :=
| batches_nil : batches fs []
| batches_last g : trailing_batch fs g -> batches fs [g]
| batches_cons g gs : closed_batch fs g -> batches fs gs -> batches fs (g :: gs).

(** Every file of the list exists. *)
Definition all_exist (fs : string -> option Z) (files : list string) : Prop :=
  Forall (fun p => fs p <> None) files.




(* ================================================================== *)
(** * Sample environments for the examples *)

Definition MiB : Z := 1024 * 1024.

Definition five_files : list string := ["f1"; "f2"; "f3"; "f4"; "f5"].

(** Five files of 2 MiB each, and one of 9 MiB. *)
Definition sample_fs (path : string) : option Z :=
  if existsb (String.eqb path) five_files then Some (2 * MiB)
  else if String.eqb path "big" then Some (9 * MiB)
  else None.

(** One second between two readings of the clock. *)
Definition sample_clock (k : nat) : Z := Z.of_nat k * 1000000.

Definition sample_login : atom := AStr "/api/rest-auth/login/".
Definition sample_upload (dataset_id : atom) : atom :=
  AStr ("/api/dataset/" ++ py_str dataset_id ++ "/upload").
Definition sample_resolve (files : list string) (_ : bool) : res (list string) := Ok files.

Definition resp_error : Response := mkResponse 500 "[1]" (Some (JArr [JNum 1])).
Definition resp_done : Response := mkResponse 200 "[2]" (Some (JArr [JNum 2])).
Definition resp_key : Response := mkResponse 200 "k" (Some (JObj [("key", JStr "abc")])).
Definition resp_denied : Response := mkResponse 400 "e" (Some (JObj [("error", JStr "bad")])).

Definition net_down : list Request -> Request -> net_result := fun _ _ => Refused.
Definition net_const (r : Response) : list Request -> Request -> net_result :=
  fun _ _ => Answered r.
(** The first request fails with status 500, the later ones succeed. *)
Definition net_first_fails : list Request -> Request -> net_result :=
  fun earlier _ => match earlier with [] => Answered resp_error | _ => Answered resp_done end.


Definition sample_api : BaseAPI := mkAPI (AStr "http://localhost:8000") (JStr "abc").
Definition anonymous_api : BaseAPI := mkAPI (AStr "http://localhost:8000") JNull.

(* ================================================================== *)
(** * More of [API]: [chunks], [upload_file] and the read calls *)

(** [range(start, stop, step)] as the list of its values; a zero step
    raises [ValueError]. *)
Definition py_range (start stop step : Z) : res (list Z) :=
  if step =? 0 then Raise ValueError
  else
    let count :=
      if 0 <? step
      then (if start <? stop then (stop - start - 1) / step + 1 else 0)
      else (if stop <? start then (start - stop - 1) / (- step) + 1 else 0) in
    Ok (map (fun k => start + Z.of_nat k * step) (seq 0 (Z.to_nat count))).

(** Where an index of a slice falls in a list of [len] items: a negative
    index counts from the end, and both ends are clipped. *)
Definition slice_index (len i : Z) : Z :=
  if i <? 0 then Z.max (i + len) 0 else Z.min i len.

(** [l[lo:hi]]. *)
Definition py_slice {A} (l : list A) (lo hi : Z) : list A :=
  let len := Z.of_nat (List.length l) in
  let lo := slice_index len lo in
  let hi := slice_index len hi in
  firstn (Z.to_nat (hi - lo)) (skipn (Z.to_nat lo) l).

(** [API.chunks]. *)
Definition chunks {A} (my_list : list A) (chunk_size : Z) : res (list (list A)) :=
  (try! starts <- py_range 0 (Z.of_nat (List.length my_list)) chunk_size ;
   Ok (map (fun i => py_slice my_list i (i + chunk_size)) starts))%res.

(** The default [chunk_size]. *)
Definition default_chunk_size : Z := 2000.

(** [d.get(k)] telling a missing key from a key bound to [None]. *)
Fixpoint dict_find (k : string) (d : list (string * json)) : option json :=
  match d with
  | [] => None
  | (k', v) :: d' => if String.eqb k' k then Some v else dict_find k d'
  end.

(** [j.get(k, default)]. *)
Definition json_get_default (k : string) (default : json) (j : json) : res json :=
  match j with
  | JObj d => Ok (match dict_find k d with Some v => v | None => default end)
  | _ => Raise AttributeError
  end.

(** What [search_images] can raise beyond [exn]: the subscript [j['results']]
    raises [KeyError] on a dict without the key and [TypeError] on a
    document that is not a dict. *)
Inductive lookup_error : Type :=
| Raised (e : exn)
| KeyError (key : string)
| TypeError.

(** [j[k]] for a string [k]. *)
Definition json_item (k : string) (j : json) : json + lookup_error :=
  match j with
  | JObj d => match dict_find k d with
              | Some v => inl v
              | None => inr (KeyError k)
              end
  | _ => inr TypeError
  end.

Section Calls.

Variable network : list Request -> Request -> net_result.
Variable fs : string -> option Z.

(** Endpoints of [remo/endpoints.py], whatever they are; those with a
    parameter stand for [backend.<name>.format(...)]. *)
Variable backend_dataset_upload : atom -> atom.
Variable backend_v1_datasets : atom.
Variable backend_v1_sdk_dataset_images : atom -> atom.
Variable backend_v1_dataset_images : atom -> atom.
Variable backend_annotation_set : atom -> atom.
Variable backend_v1_sdk_images : atom.
Variable backend_v1_search : atom.

Definition upload_file (self : BaseAPI) (dataset_id : atom) (path : string)
           (annotation_task folder_id : atom) : M World json :=
  (do f <- lift_res (open_rb fs path) ;
   let data := if truthy_atom annotation_task
               then dict_set "annotation_task" annotation_task [] else [] in
   do u <- lift_res (url self (backend_dataset_upload dataset_id) []
                         [("folder_id", QAtom folder_id)]) ;
   do r <- post network self u (Multipart [f] data) ;
   lift_res (resp_json r))%M.

Definition list_datasets (self : BaseAPI) : M World json :=
  (do u <- lift_res (url self backend_v1_datasets [] []) ;
   do r <- get network self u ;
   lift_res (resp_json r))%M.

Definition list_dataset_images (self : BaseAPI) (dataset_id : atom) (limit offset : qval)
  : M World json :=
  (do u <- lift_res (url self (backend_v1_sdk_dataset_images dataset_id) []
                         [("limit", limit); ("offset", offset)]) ;
   do r <- get network self u ;
   lift_res (resp_json r))%M.

Definition list_dataset_contents (self : BaseAPI) (dataset_id : atom) (limit : qval)
  : M World json :=
  (do u <- lift_res (url self (backend_v1_dataset_images dataset_id) [] [("limit", limit)]) ;
   do r <- get network self u ;
   lift_res (resp_json r))%M.

Definition get_dataset (self : BaseAPI) (id : atom) : M World json :=
  (do u <- lift_res (url self backend_v1_datasets [id] [("tail_slash", QAtom (ABool true))]) ;
   do r <- get network self u ;
   lift_res (resp_json r))%M.

Definition get_image (self : BaseAPI) (image_id : atom) : M World json :=
  (do u <- lift_res (url self backend_v1_sdk_images [image_id]
                         [("tail_slash", QAtom (ABool true))]) ;
   do r <- get network self u ;
   lift_res (resp_json r))%M.

Definition list_annotation_set_classes (self : BaseAPI) (annotation_set_id : atom)
  : M World json :=
  (do u <- lift_res (url self (backend_annotation_set annotation_set_id) [] []) ;
   do r <- get network self u ;
   do json_data <- lift_res (resp_json r) ;
   lift_res (json_get_default "classes" (JArr []) json_data))%M.

(** The [params] dict of [search_images]: a filter enters it when it is
    truthy. *)
Definition search_params (classes task dataset_id limit : qval) : kwargs_t :=
  let params := [] in
  let params := if truthy task then dict_set "tasks" task params else params in
  let params := if truthy classes then dict_set "classes" classes params else params in
  let params := if truthy dataset_id then dict_set "dataset_id" dataset_id params else params in
  if truthy limit then dict_set "limit" limit params else params.

Definition search_images (self : BaseAPI) (classes task dataset_id limit : qval)
  : World -> (json + lookup_error) * World :=
  fun w =>
    let params := search_params classes task dataset_id limit in
    match (do u <- lift_res (url self backend_v1_search [] params) ;
           do r <- get network self u ;
           lift_res (resp_json r))%M w
    with
    | (Ok j, w') => (json_item "results" j, w')
    | (Raise e, w') => (inr (Raised e), w')
    end.

End Calls.

(** Every character of [s] satisfies [p]. *)
Fixpoint string_forall (p : ascii -> bool) (s : string) : bool :=
  match s with
  | EmptyString => true
  | String a s' => p a && string_forall p s'
  end.

(** A character that [quote] may produce. *)
Definition quote_output (c : ascii) : bool := quote_safe c || Ascii.eqb c "%".

(** The value of a hexadecimal digit, in either case. *)
Definition hex_value (c : ascii) : option N :=
  let n := N_of_ascii c in
  if in_range 48 57 c then Some (n - 48)%N
  else if in_range 65 70 c then Some (n - 55)%N
  else if in_range 97 102 c then Some (n - 87)%N
  else None.

(** [urllib.parse.unquote] on bytes, the inverse of [quote], by which to say
    what an encoded piece stands for: [%XX] with two hexadecimal digits is
    the byte [XX], everything else stands for itself. *)
Fixpoint unquote (s : string) : string :=
  match s with
  | EmptyString => EmptyString
  | String c s' =>
      if Ascii.eqb c "%" then
        match s' with
        | String h (String l rest) =>
            match hex_value h, hex_value l with
            | Some x, Some y => String (ascii_of_N (16 * x + y)) (unquote rest)
            | _, _ => String c (unquote s')
            end
        | _ => String c (unquote s')
        end
      else String c (unquote s')
  end.

(** The state a bulk upload starts its batches from: the tracker made by
    [UploadStatus(len(files))] and the world after that reading of the
    clock. *)
Definition bulk_start (clock : nat -> Z) (files : list string) (w : World)
  : World * UploadStatus :=
  (mkWorld (sent w) (stdout w) (S (reads w)),
   mkStatus (Z.of_nat (List.length files)) 0 (clock (reads w)) 0).

(** Sample endpoints and answers for the examples. *)
Definition sample_datasets : atom := AStr "/api/v1/ui/datasets".
Definition sample_images (dataset_id : atom) : atom :=
  AStr ("/api/v1/sdk/datasets/" ++ py_str dataset_id ++ "/images").
Definition sample_annotation_set (annotation_set_id : atom) : atom :=
  AStr ("/api/annotation-set/" ++ py_str annotation_set_id).
Definition sample_search : atom := AStr "/api/v1/sdk/search".
Definition resp_no_classes : Response := mkResponse 200 "o" (Some (JObj [("id", JNum 4)])).
Definition resp_no_key : Response := mkResponse 200 "o" (Some (JObj [("id", JNum 4)])).
Definition resp_results : Response :=
  mkResponse 200 "o" (Some (JObj [("results", JArr [JNum 7])])).

(* ================================================================== *)
(** * Properties *)

(** ** Examples of the URL builder *)

Example build_url_ex1 :
  _build_url [AStr "http://localhost:8000/"; ANone; AStr "/api/dataset/"; AInt 7]
             [("limit", QAtom (AInt 10)); ("classes", QList [AStr "a b"; AStr "c"]);
              ("offset", QAtom ANone)]
  = Ok "http://localhost:8000/api/dataset/7/?limit=10&classes=a%20b,c".
Proof. reflexivity. Qed.

Example build_url_ex2 :
  _build_url [AStr "http://localhost:8000"; AStr "/api/v1/"] [] = Ok "http://localhost:8000/api/v1/".
Proof. reflexivity. Qed.

Example build_url_ex3 :
  _build_url [AStr "http://localhost:8000"; AStr "/api/v1/search?a=1"] [("q", QAtom (AStr "a b,c"))]
  = Ok "http://localhost:8000/api/v1/search?a=1&q=a%20b,c".
Proof. reflexivity. Qed.

Example split_ex :
  split_files_by_size sample_fs ["f1"; "big"; "f2"; "f3"] = Ok [["f1"; "big"]; ["f2"; "f3"]].
Proof. reflexivity. Qed.

Example bulk_ex :
  fst (bulk_upload_files net_first_fails sample_clock sample_fs sample_upload sample_resolve
         sample_api (AInt 3) five_files ANone ANone ANone None world0)
  = Ok [Ok (JArr [JNum 1]); Ok (JArr [JNum 2])].
Proof. vm_compute. reflexivity. Qed.

(* ------------------------------------------------------------------ *)
(** ** Batching: [split_files_by_size] *)

Section Batching.

Variable fs : string -> option Z.

Lemma batch_size_app (a b : list string) :
  batch_size fs (a ++ b) = batch_size fs a + batch_size fs b.
Proof.
  induction a as [|x a IH]; simpl; [reflexivity|].
  rewrite IH. destruct (fs x); lia.
Qed.

Lemma batch_size_snoc (bulk : list string) (path : string) (n : Z) :
  fs path = Some n -> batch_size fs (bulk ++ [path]) = batch_size fs bulk + n.
Proof.
  intros E. rewrite batch_size_app. simpl. rewrite E. lia.
Qed.

(** A prefix of [bulk ++ [x]] that leaves something over is a prefix of
    [bulk]. *)
Lemma prefix_of_snoc {A} (bulk p q : list A) (x : A) :
  (bulk ++ [x] = p ++ q)%list -> q <> [] -> exists q', bulk = (p ++ q')%list.
Proof.
  intros E Hq.
  destruct (exists_last Hq) as (q' & y & ->).
  rewrite app_assoc in E. apply app_inj_tail in E.
  exists q'. apply E.
Qed.

(** The groups already closed are only ever extended. *)
Lemma split_loop_groups (files : list string) :
  forall groups bulk total,
    split_loop fs files groups bulk total
    = res_bind (split_loop fs files [] bulk total) (fun gs => Ok (groups ++ gs)%list).
Proof.
  induction files as [|path rest IH]; intros groups bulk total; simpl.
  - destruct bulk; simpl; [now rewrite app_nil_r | reflexivity].
  - destruct (os_getsize fs path) as [sz|e]; simpl; [|reflexivity].
    destruct (total + sz >=? bulk_size).
    + rewrite IH. rewrite (IH [(bulk ++ [path])%list]).
      destruct (split_loop fs rest [] [] 0); simpl; [|reflexivity].
      now rewrite <- app_assoc.
    + apply IH.
Qed.

(** The loop invariant: [bulk] is the open batch, [total] its size, and no
    prefix of it has reached [bulk_size]. *)
Lemma split_loop_batches (files : list string) :
  forall groups bulk total,
    all_exist fs files ->
    total = batch_size fs bulk ->
    (forall p q, bulk = (p ++ q)%list -> batch_size fs p < bulk_size) ->
    exists gs,
      split_loop fs files groups bulk total = Ok (groups ++ gs)%list /\
      List.concat gs = (bulk ++ files)%list /\
      batches fs gs.
Proof.
  induction files as [|path rest IH]; intros groups bulk total Hex Htot Hopen.
  - destruct bulk as [|b bulk'] eqn:Eb.
    + exists []. simpl. rewrite app_nil_r. repeat split. constructor.
    + exists [b :: bulk']. simpl. rewrite !app_nil_r. repeat split.
      apply batches_last. split; [discriminate | exact Hopen].
  - inversion Hex as [|? ? Hpath Hrest]; subst.
    destruct (fs path) as [sz|] eqn:Esz; [|congruence].
    simpl. unfold os_getsize. rewrite Esz. simpl.
    destruct (batch_size fs bulk + sz >=? bulk_size) eqn:Ecmp.
    + destruct (IH (groups ++ [(bulk ++ [path])%list])%list [] 0 Hrest eq_refl) as (gs & Hrun & Hcat & Hsh).
      { intros p q E. destruct p; [simpl; unfold bulk_size; lia | destruct q; discriminate]. }
      exists ((bulk ++ [path])%list :: gs). rewrite Hrun. split; [|split].
      * now rewrite <- app_assoc.
      * simpl. rewrite Hcat. simpl. now rewrite <- app_assoc.
      * apply batches_cons; [|exact Hsh]. split.
        -- rewrite (batch_size_snoc _ _ _ Esz). lia.
        -- intros p q E Hq. destruct (prefix_of_snoc _ _ _ _ E Hq) as (q' & Hq').
           apply (Hopen p q' Hq').
    + destruct (IH groups (bulk ++ [path])%list (batch_size fs bulk + sz) Hrest) as (gs & Hrun & Hcat & Hsh).
      { now rewrite (batch_size_snoc _ _ _ Esz). }
      { intros p q E. destruct q as [|y q].
        - rewrite app_nil_r in E. subst p. rewrite (batch_size_snoc _ _ _ Esz). lia.
        - assert (Hq : y :: q <> []) by discriminate.
          destruct (prefix_of_snoc _ _ _ _ E Hq) as (q' & Hq').
          apply (Hopen p q' Hq'). }
      exists gs. rewrite Hrun. split; [reflexivity|]. split; [|exact Hsh].
      rewrite Hcat. now rewrite <- app_assoc.
Qed.

(** C1: when the files exist, [split_files_by_size] returns batches whose
    concatenation is the input list (every file in exactly one batch, in
    input order); each batch but possibly the last was closed by the file
    with which its accumulated size first reached or exceeded [bulk_size]
    (8 MiB), and a last batch below [bulk_size] is flushed when it is not
    empty. A file of at least [bulk_size] met at the start of a batch forms
    a batch of its own. Five files of 2 MiB each give the batches of files
    1-4 and of file 5. *)
Theorem split_files_by_size_batches :
  (forall files,
      all_exist fs files ->
      exists groups,
        split_files_by_size fs files = Ok groups /\
        List.concat groups = files /\
        batches fs groups) /\
  (forall f n rest,
      fs f = Some n -> bulk_size <= n ->
      split_files_by_size fs (f :: rest)
      = res_bind (split_files_by_size fs rest) (fun gs => Ok ([f] :: gs))) /\
  (forall f1 f2 f3 f4 f5,
      Forall (fun f => fs f = Some (2 * MiB)) [f1; f2; f3; f4; f5] ->
      split_files_by_size fs [f1; f2; f3; f4; f5] = Ok [[f1; f2; f3; f4]; [f5]]).
Proof.
  split; [|split].
  - intros files Hex.
    destruct (split_loop_batches files [] [] 0 Hex eq_refl) as (gs & Hrun & Hcat & Hsh).
    { intros p q E. destruct p; [simpl; unfold bulk_size; lia | discriminate]. }
    exists gs. auto.
  - intros f n rest Hf Hn. unfold split_files_by_size. simpl.
    unfold os_getsize. rewrite Hf. simpl.
    replace (n >=? bulk_size) with true by (symmetry; apply Z.geb_le; lia).
    apply split_loop_groups.
  - intros f1 f2 f3 f4 f5 H.
    repeat match goal with
           | H : Forall _ (_ :: _) |- _ => inversion H; clear H; subst
           end.
    unfold split_files_by_size, split_loop, os_getsize.
    repeat match goal with
           | H : fs _ = Some _ |- _ => rewrite H; clear H
           end.
    reflexivity.
Qed.

End Batching.

Lemma split_files_by_size_batches_witness :
  (exists groups,
      split_files_by_size sample_fs five_files = Ok groups /\
      List.concat groups = five_files /\ batches sample_fs groups) /\
  split_files_by_size sample_fs ["big"; "f1"] = Ok [["big"]; ["f1"]] /\
  split_files_by_size sample_fs five_files = Ok [["f1"; "f2"; "f3"; "f4"]; ["f5"]].
Proof.
  destruct (split_files_by_size_batches sample_fs) as (H1 & H2 & H3).
  split; [|split].
  - apply H1. unfold all_exist, five_files.
    repeat (constructor; [vm_compute; discriminate|]). constructor.
  - apply (H2 "big" (9 * MiB) ["f1"]); [reflexivity | vm_compute; discriminate].
  - apply H3. repeat (constructor; [reflexivity|]). constructor.
Defined.

(* ------------------------------------------------------------------ *)
(** ** The URL builder: [_build_url] *)

Lemma append_empty_r (s : string) : s ++ "" = s.
Proof. induction s as [|a s IH]; simpl; [reflexivity | now rewrite IH]. Qed.

Lemma contains_append (c : ascii) (a b : string) :
  contains c (a ++ b) = contains c a || contains c b.
Proof.
  induction a as [|x a IH]; simpl; [reflexivity|].
  rewrite IH. now rewrite orb_assoc.
Qed.

Lemma last_item_ok {A} (l : list A) (d : A) :
  l <> [] -> last_item l = Ok (last l d).
Proof.
  induction l as [|a l IH]; intros Hl; [congruence|].
  destruct l as [|b l]; [reflexivity|].
  change (last_item (b :: l) = Ok (last (b :: l) d)).
  apply IH. discriminate.
Qed.

Lemma last_char_ok (s : string) :
  s <> "" -> exists c, last_char s = Ok c.
Proof.
  induction s as [|a s IH]; intros Hs; [congruence|].
  destruct s as [|b s]; [exists a; reflexivity|].
  destruct IH as (c & Hc); [discriminate|].
  exists c. exact Hc.
Qed.

Lemma last_char_raises (s : string) (e : exn) :
  last_char s = Raise e -> e = IndexError_string.
Proof.
  induction s as [|a s IH]; simpl; [congruence|].
  destruct s; [discriminate | exact IH].
Qed.

(** *** Keyword arguments *)

Lemma kw_get_other (key k : string) (v : qval) (kw1 kw2 : kwargs_t) :
  k <> key -> kw_get key (kw1 ++ (k, v) :: kw2) = kw_get key (kw1 ++ kw2).
Proof.
  intros Hk. induction kw1 as [|[k1 v1] kw1 IH]; simpl.
  - destruct (String.eqb_spec k key); [congruence | reflexivity].
  - now rewrite IH.
Qed.

Lemma kw_del_other (key k : string) (v : qval) (kw1 kw2 : kwargs_t) :
  k <> key ->
  kw_del key (kw1 ++ (k, v) :: kw2) = (kw_del key kw1 ++ (k, v) :: kw_del key kw2)%list.
Proof.
  intros Hk. unfold kw_del. rewrite filter_app. simpl.
  destruct (String.eqb_spec k key); [congruence | reflexivity].
Qed.

Lemma kw_del_app (key : string) (kw1 kw2 : kwargs_t) :
  kw_del key (kw1 ++ kw2) = (kw_del key kw1 ++ kw_del key kw2)%list.
Proof. apply filter_app. Qed.

Lemma render_params_app (kw1 kw2 : kwargs_t) :
  render_params (kw1 ++ kw2) = (render_params kw1 ++ render_params kw2)%list.
Proof. apply flat_map_app. Qed.

Lemma render_params_cons (k : string) (v : qval) (kw : kwargs_t) :
  render_params ((k, v) :: kw) = (render_param k v ++ render_params kw)%list.
Proof. reflexivity. Qed.

(** A query parameter enters the URL only through what [render_param]
    makes of it. *)
Lemma build_url_param_congr (args : list atom) (kw1 kw2 : kwargs_t) (k : string) (v v' : qval) :
  k <> "tail_slash" ->
  render_param k v = render_param k v' ->
  _build_url args (kw1 ++ (k, v) :: kw2) = _build_url args (kw1 ++ (k, v') :: kw2).
Proof.
  intros Hk Hr. unfold _build_url.
  destruct (last_item _) as [a|e]; simpl; [|reflexivity].
  destruct (last_char _) as [c|e]; simpl; [|reflexivity].
  unfold kw_pop. rewrite !(kw_get_other _ _ _ _ _ Hk).
  destruct (kw_get "tail_slash" (kw1 ++ kw2)) as [flag|].
  - rewrite !(kw_del_other _ _ _ _ _ Hk), !render_params_app, !render_params_cons, Hr.
    reflexivity.
  - rewrite !render_params_app, !render_params_cons, Hr. reflexivity.
Qed.

Lemma build_url_param_drop (args : list atom) (kw1 kw2 : kwargs_t) (k : string) (v : qval) :
  k <> "tail_slash" ->
  render_param k v = [] ->
  _build_url args (kw1 ++ (k, v) :: kw2) = _build_url args (kw1 ++ kw2).
Proof.
  intros Hk Hr. unfold _build_url.
  destruct (last_item _) as [a|e]; simpl; [|reflexivity].
  destruct (last_char _) as [c|e]; simpl; [|reflexivity].
  unfold kw_pop. rewrite (kw_get_other _ _ _ _ _ Hk).
  destruct (kw_get "tail_slash" (kw1 ++ kw2)) as [flag|].
  - rewrite (kw_del_other _ _ _ _ _ Hk), kw_del_app, !render_params_app, render_params_cons, Hr.
    reflexivity.
  - rewrite !render_params_app, render_params_cons, Hr. reflexivity.
Qed.

(** C2, as the code has it: a falsy value that is neither a string nor a
    list ([None], [0], [False]) leaves no trace in the URL; the empty string
    and the empty list are rendered, as an entry [key=] with nothing after
    the equals sign. *)
Theorem falsy_scalars_omitted (args : list atom) (kw1 kw2 : kwargs_t) (k : string) (a : atom) :
  k <> "tail_slash" ->
  a = ANone \/ a = AInt 0 \/ a = ABool false ->
  _build_url args (kw1 ++ (k, QAtom a) :: kw2) = _build_url args (kw1 ++ kw2) /\
  render_param k (QAtom (AStr "")) = [k ++ "="] /\
  render_param k (QList []) = [k ++ "="].
Proof.
  intros Hk Ha. split; [|split; reflexivity].
  apply build_url_param_drop; [exact Hk|].
  destruct Ha as [->|[->| ->]]; reflexivity.
Qed.

Lemma falsy_scalars_omitted_witness :
  _build_url [AStr "http://s"; AStr "e"] [("a", QAtom (AInt 1)); ("limit", QAtom (AInt 0))]
  = Ok "http://s/e/?a=1".
Proof.
  refine (eq_trans
            (proj1 (falsy_scalars_omitted [AStr "http://s"; AStr "e"] [("a", QAtom (AInt 1))] []
                      "limit" (AInt 0) _ _)) _).
  - discriminate.
  - right; left; reflexivity.
  - reflexivity.
Defined.

(** C2 as stated fails: the empty string is falsy and is not omitted. *)
Lemma empty_string_param_rendered :
  truthy (QAtom (AStr "")) = false /\
  _build_url [AStr "http://s"; AStr "e"] [("q", QAtom (AStr ""))] = Ok "http://s/e/?q=" /\
  _build_url [AStr "http://s"; AStr "e"] [("q", QAtom (AStr ""))]
  <> _build_url [AStr "http://s"; AStr "e"] [].
Proof.
  split; [reflexivity|]. split; [reflexivity|]. vm_compute. discriminate.
Qed.

(** *** Path segments and the trailing slash *)

(** C10: without a positional argument other than [None], [_build_url], and
    with it [BaseAPI.url], raises the [IndexError] of the list access
    [args[-1]], whatever the keyword arguments; with one, that access
    succeeds and the list error is not raised. *)
Theorem build_url_needs_segment (args : list atom) (kwargs : kwargs_t) :
  (segments args = [] ->
   _build_url args kwargs = Raise IndexError_list /\
   forall self endpoint rest,
     server self :: endpoint :: rest = args ->
     url self endpoint rest kwargs = Raise IndexError_list) /\
  (segments args <> [] ->
   (exists a, last_item (segments args) = Ok a) /\
   _build_url args kwargs <> Raise IndexError_list).
Proof.
  split.
  - intros Hnil. assert (H : _build_url args kwargs = Raise IndexError_list).
    { unfold _build_url. fold (segments args). rewrite Hnil. reflexivity. }
    split; [exact H|]. intros self endpoint rest <-. exact H.
  - intros Hne. pose proof (last_item_ok (segments args) ANone Hne) as Hlast.
    split; [eexists; exact Hlast|].
    unfold _build_url. fold (segments args). rewrite Hlast. simpl.
    destruct (last_char _) as [c|e] eqn:Ec; simpl.
    + destruct (kw_pop _ _ _) as [flag kw].
      destruct (render_params kw); [|discriminate].
      destruct (_ && _); discriminate.
    + apply last_char_raises in Ec. subst e. discriminate.
Qed.

Lemma build_url_needs_segment_witness :
  _build_url [ANone; ANone] [("tail_slash", QAtom (ABool true))] = Raise IndexError_list /\
  _build_url [AStr "http://s"; ANone] [] <> Raise IndexError_list.
Proof.
  split.
  - apply (proj1 (build_url_needs_segment [ANone; ANone] [("tail_slash", QAtom (ABool true))])).
    reflexivity.
  - apply (proj2 (build_url_needs_segment [AStr "http://s"; ANone] [])).
    discriminate.
Defined.

(** C8, as the code has it: with a segment other than [None], the last of
    them not the empty string, and no query parameter, the result is the
    segments stripped of their outer slashes and joined by [/]; a [/] is
    appended exactly when the URL so far holds no [?] and the flag is true,
    the flag being [tail_slash] when it is given and otherwise whether the
    last segment ended in [/]. *)
Theorem build_url_path (args : list atom) :
  segments args <> [] ->
  py_str (last (segments args) ANone) <> "" ->
  _build_url args []
  = Ok (joined_path args ++
        if negb (contains qmark (joined_path args))
           && ends_with slash (py_str (last (segments args) ANone))
        then "/" else "") /\
  forall flag,
    _build_url args [("tail_slash", flag)]
    = Ok (joined_path args ++
          if negb (contains qmark (joined_path args)) && truthy flag then "/" else "").
Proof.
  intros Hne Hstr.
  pose proof (last_item_ok (segments args) ANone Hne) as Hlast.
  destruct (last_char_ok _ Hstr) as (c & Hc).
  unfold _build_url. fold (segments args). rewrite Hlast. simpl. rewrite Hc. simpl.
  fold (joined_path args). unfold ends_with. rewrite Hc.
  split.
  - destruct (negb (contains qmark (joined_path args))); simpl.
    + destruct (Ascii.eqb c slash); [reflexivity | now rewrite append_empty_r].
    + now rewrite append_empty_r.
  - intros flag.
    destruct (negb (contains qmark (joined_path args)) && truthy flag);
      [reflexivity | now rewrite append_empty_r].
Qed.

Lemma build_url_path_witness :
  _build_url [AStr "http://localhost:8000/"; ANone; AStr "/api/v1/datasets/"; AInt 12] []
  = Ok "http://localhost:8000/api/v1/datasets/12" /\
  _build_url [AStr "http://localhost:8000/"; ANone; AStr "/api/v1/datasets/"; AInt 12]
             [("tail_slash", QAtom (ABool true))]
  = Ok "http://localhost:8000/api/v1/datasets/12/".
Proof.
  assert (H1 : segments [AStr "http://localhost:8000/"; ANone; AStr "/api/v1/datasets/"; AInt 12] <> [])
    by discriminate.
  assert (H2 : py_str (last (segments [AStr "http://localhost:8000/"; ANone;
                                       AStr "/api/v1/datasets/"; AInt 12]) ANone) <> "")
    by (vm_compute; discriminate).
  split.
  - exact (proj1 (build_url_path _ H1 H2)).
  - exact (proj2 (build_url_path _ H1 H2) (QAtom (ABool true))).
Defined.

(** C8 as stated fails: the last segment ends in [/] and no flag is given,
    yet no [/] is appended, because the URL holds a [?]. *)
Lemma trailing_slash_not_appended :
  segments [AStr "http://s"; AStr "search?q=1/"] <> [] /\
  ends_with slash (py_str (last (segments [AStr "http://s"; AStr "search?q=1/"]) ANone)) = true /\
  joined_path [AStr "http://s"; AStr "search?q=1/"] = "http://s/search?q=1" /\
  _build_url [AStr "http://s"; AStr "search?q=1/"] [] = Ok "http://s/search?q=1" /\
  _build_url [AStr "http://s"; AStr "search?q=1/"] []
  <> Ok (joined_path [AStr "http://s"; AStr "search?q=1/"] ++ "/").
Proof.
  split; [discriminate|]. repeat (split; [reflexivity|]). vm_compute. discriminate.
Qed.

(** An empty string as the last segment gives no URL at all. *)
Example build_url_empty_last_segment :
  _build_url [AStr "http://s"; AStr ""] [] = Raise IndexError_string.
Proof. reflexivity. Qed.

(** *** List values and comma strings *)

Lemma split_without_sep (c : ascii) (s : string) :
  contains c s = false -> split c s = [s].
Proof.
  induction s as [|a s IH]; simpl; [reflexivity|].
  intros H. apply orb_false_iff in H. destruct H as (Ha & Hs).
  rewrite Ha, (IH Hs). reflexivity.
Qed.

Lemma split_append_sep (c : ascii) (s rest : string) :
  contains c s = false ->
  split c (s ++ String c rest) = s :: split c rest.
Proof.
  induction s as [|a s IH]; simpl.
  - intros _. now rewrite Ascii.eqb_refl.
  - intros H. apply orb_false_iff in H. destruct H as (Ha & Hs).
    rewrite Ha, (IH Hs). reflexivity.
Qed.

Lemma split_join (c : ascii) (l : list string) :
  l <> [] ->
  Forall (fun s => contains c s = false) l ->
  split c (join (String c "") l) = l.
Proof.
  induction l as [|x l IH]; intros Hne Hall; [congruence|].
  inversion Hall as [|? ? Hx Hl]; subst.
  destruct l as [|y l].
  - simpl. now apply split_without_sep.
  - change (join (String c "") (x :: y :: l))
      with (x ++ String c (join (String c "") (y :: l))).
    rewrite (split_append_sep _ _ _ Hx). f_equal.
    apply IH; [discriminate | exact Hl].
Qed.

Lemma contains_join (c : ascii) (x y : string) (l : list string) :
  contains c (join (String c "") (x :: y :: l)) = true.
Proof.
  change (join (String c "") (x :: y :: l))
    with (x ++ String c (join (String c "") (y :: l))).
  rewrite contains_append. simpl. rewrite Ascii.eqb_refl.
  now rewrite orb_true_r.
Qed.

Lemma render_list_as_string (k : string) (l : list atom) :
  Forall (fun v => contains comma (py_str v) = false) l ->
  render_param k (QList l) = render_param k (QAtom (AStr (join "," (map py_str l)))).
Proof.
  intros Hall. unfold render_param.
  destruct l as [|a [|b l]].
  - reflexivity.
  - inversion Hall as [|? ? Ha _]; subst. simpl. rewrite Ha. reflexivity.
  - assert (Hc : contains comma (join "," (map py_str (a :: b :: l))) = true)
      by apply (contains_join comma).
    assert (Hs : split comma (join "," (map py_str (a :: b :: l))) = map py_str (a :: b :: l)).
    { apply (split_join comma); [discriminate|]. apply Forall_map. exact Hall. }
    rewrite Hc, Hs, map_map. reflexivity.
Qed.

(* ------------------------------------------------------------------ *)
(** ** The session: login and authenticated requests *)

Section Session.

Variable network : list Request -> Request -> net_result.
Variable backend_login : atom.

(** C4: [post] and [get] on a client without a token raise
    [Exception('Not authenticated')] and leave the world as it was: no
    request is handed to [requests]. *)
Theorem unauthenticated_request_fails
        (self : BaseAPI) (u : string) (body : payload) (w : World) :
  token self = JNull ->
  post network self u body w = (Raise (Exception (JStr "Not authenticated")), w) /\
  get network self u w = (Raise (Exception (JStr "Not authenticated")), w).
Proof.
  intros Htok. unfold post, get, bind, lift_res, _auth_header, _is_authenticated.
  rewrite Htok. split; reflexivity.
Qed.

(** With a token, the request goes out with the [Authorization] header. *)
Lemma authenticated_post (self : BaseAPI) (u : string) (body : payload) (w : World) :
  token self <> JNull ->
  post network self u body w
  = requests_send network (mkRequest POST u (Authorization (token self)) body) w.
Proof.
  intros Htok. unfold post, bind, lift_res, _auth_header, _is_authenticated.
  destruct (token self); try reflexivity. congruence.
Qed.

(** C5: the three outcomes of [_login], for the request
    [POST url(backend.login)] with the form fields [password] and [email].
    A refused connection is printed and the client is returned as it is
    (from the constructor: with no token), nothing is raised. A status
    other than 200 raises, and what is raised is [Exception(resp.json())],
    the response body. With status 200 the token becomes the [key] field
    of the body. *)
Theorem login_outcomes (self : BaseAPI) (email password u : string) (w : World) :
  url self backend_login [] [] = Ok u ->
  let rq := mkRequest POST u NoHeaders (Form [("password", password); ("email", email)]) in
  let w1 := mkWorld (sent w ++ [rq]) (stdout w) (reads w) in
  (network (sent w) rq = Refused ->
   _login network backend_login self email password w
   = (Ok self, mkWorld (sent w ++ [rq]) (stdout w ++ [FailedConnect]) (reads w)) /\
   (token self = JNull ->
    forall r w', _login network backend_login self email password w = (r, w') ->
                 exists self', r = Ok self' /\ token self' = JNull)) /\
  (forall r,
      network (sent w) rq = Answered r ->
      status_code r <> HTTP_OK ->
      (exists e, _login network backend_login self email password w = (Raise e, w1)) /\
      (forall j, resp_body r = Some j ->
                 _login network backend_login self email password w
                 = (Raise (Exception j), w1))) /\
  (forall r d,
      network (sent w) rq = Answered r ->
      status_code r = HTTP_OK ->
      resp_body r = Some (JObj d) ->
      _login network backend_login self email password w
      = (Ok (mkAPI (server self) (dict_get "key" d)), w1)).
Proof.
  intros Hu rq w1. unfold _login. rewrite Hu. unfold requests_send.
  fold rq. fold w1. split; [|split].
  - intros Hnet. rewrite Hnet. simpl. split; [reflexivity|].
    intros Htok r w' E. inversion E; subst. eauto.
  - intros r Hnet Hst. rewrite Hnet.
    apply Z.eqb_neq in Hst. rewrite Hst. simpl. split.
    + unfold resp_json. destruct (resp_body r); eauto.
    + intros j Hj. unfold resp_json. rewrite Hj. reflexivity.
  - intros r d Hnet Hst Hbody. rewrite Hnet.
    apply Z.eqb_eq in Hst. rewrite Hst. simpl.
    unfold resp_json. rewrite Hbody. reflexivity.
Qed.

End Session.

Lemma unauthenticated_request_fails_witness :
  post (net_const resp_done) anonymous_api "http://localhost:8000/api/dataset" NoPayload world0
  = (Raise (Exception (JStr "Not authenticated")), world0).
Proof.
  apply (unauthenticated_request_fails (net_const resp_done) anonymous_api
           "http://localhost:8000/api/dataset" NoPayload world0).
  reflexivity.
Defined.

Lemma login_outcomes_witness :
  fst (_login net_down sample_login anonymous_api "me@x.org" "pw" world0) = Ok anonymous_api /\
  fst (_login (net_const resp_denied) sample_login anonymous_api "me@x.org" "pw" world0)
  = Raise (Exception (JObj [("error", JStr "bad")])) /\
  fst (_login (net_const resp_key) sample_login anonymous_api "me@x.org" "pw" world0)
  = Ok sample_api.
Proof.
  split; [|split].
  - rewrite (proj1 (proj1 (login_outcomes net_down sample_login anonymous_api "me@x.org" "pw"
                             "http://localhost:8000/api/rest-auth/login/" world0 eq_refl)
                          eq_refl)).
    reflexivity.
  - rewrite (proj2 (proj1 (proj2 (login_outcomes (net_const resp_denied) sample_login
                                    anonymous_api "me@x.org" "pw"
                                    "http://localhost:8000/api/rest-auth/login/" world0 eq_refl))
                          resp_denied eq_refl ltac:(discriminate))
                   _ eq_refl).
    reflexivity.
  - rewrite (proj2 (proj2 (login_outcomes (net_const resp_key) sample_login
                             anonymous_api "me@x.org" "pw"
                             "http://localhost:8000/api/rest-auth/login/" world0 eq_refl))
                   resp_key _ eq_refl eq_refl eq_refl).
    reflexivity.
Defined.

(* ------------------------------------------------------------------ *)
(** ** The progress tracker: [UploadStatus] *)

Section Tracker.

Variable clock : nat -> Z.

(** No report when the percentage has not grown; the percentage is
    recorded all the same. *)
Lemma progress_silent (w : World) (st : UploadStatus) (p : Z) :
  percentage st = Ok p ->
  p <= reported_progress st ->
  progress clock (w, st) = (Ok tt, (w, set_reported p st)).
Proof.
  intros Hp Hle. unfold progress, bind, lift_res. simpl. rewrite Hp.
  assert (E : (p >? reported_progress st) = false) by (rewrite Z.gtb_ltb; apply Z.ltb_ge; lia).
  rewrite E.
  reflexivity.
Qed.

(** One report when it has grown, and the percentage is recorded. *)
Lemma progress_reports (w : World) (st : UploadStatus) (p : Z) (r : report) :
  percentage st = Ok p ->
  reported_progress st < p ->
  make_report p (clock (reads w)) st = Ok r ->
  progress clock (w, st)
  = (Ok tt, (mkWorld (sent w) (stdout w ++ [Progress r]) (S (reads w)), set_reported p st)).
Proof.
  intros Hp Hlt Hr. unfold progress, bind, lift_res. simpl. rewrite Hp.
  assert (E : (p >? reported_progress st) = true) by (rewrite Z.gtb_ltb; apply Z.ltb_lt; lia).
  rewrite E.
  unfold on_fst, now. simpl. rewrite Hr. reflexivity.
Qed.

(** [progress] sends nothing. *)
Lemma progress_sent (ws : World * UploadStatus) :
  sent (fst (snd (progress clock ws))) = sent (fst ws).
Proof.
  destruct ws as [w st]. unfold progress, bind, lift_res. simpl.
  destruct (percentage st) as [p|e]; [|reflexivity].
  destruct (p >? reported_progress st); [|reflexivity].
  unfold on_fst, now. simpl.
  destruct (make_report _ _ _); reflexivity.
Qed.

(** What [progress] leaves when it returns: the percentage in
    [reported_progress], the rest of the tracker as it was. *)
Lemma progress_returns (ws ws' : World * UploadStatus) :
  progress clock ws = (Ok tt, ws') ->
  exists p, percentage (snd ws) = Ok p /\ snd ws' = set_reported p (snd ws).
Proof.
  destruct ws as [w st]. unfold progress, bind, lift_res. simpl.
  destruct (percentage st) as [p|e]; [|discriminate].
  destruct (p >? reported_progress st).
  - unfold on_fst, now. simpl.
    destruct (make_report _ _ _); [|discriminate].
    simpl. intros E. inversion E; subst. exists p. auto.
  - intros E. inversion E; subst. exists p. auto.
Qed.

End Tracker.

(** After a call of [progress] that returned, [update(0)] and a second call,
    at whatever time, print nothing and change nothing. *)
Lemma update_zero_never_rereports
      (clock clock' : nat -> Z) (ws ws' : World * UploadStatus) (w : World) :
  progress clock ws = (Ok tt, ws') ->
  progress clock' (w, update 0 (snd ws')) = (Ok tt, (w, snd ws')).
Proof.
  intros H. destruct (progress_returns _ _ _ H) as (p & Hp & Hst).
  rewrite Hst. destruct (snd ws) as [tot cur st0 rep] eqn:E.
  unfold update, set_reported. simpl. rewrite Z.add_0_r.
  apply (progress_silent clock' w (mkStatus tot cur st0 p) p); [exact Hp | simpl; lia].
Qed.

(** C3: with 29 of 100 files done the exact percentage is 29, the code
    computes 28, because the double nearest to 0.29 times 100 rounds to
    28.999999999999996, and prints a line for 28 %. *)
Theorem progress_29_of_100 :
  let st := update 29 (mkStatus 100 0 0 0) in
  exact_percentage st = 29 /\
  percentage st = Ok 28 /\
  exists r,
    progress sample_clock (world0, st)
    = (Ok tt, (mkWorld [] [Progress r] 1, set_reported 28 st)) /\
    r_percentage r = 28 /\ r_current r = 29 /\ r_total r = 100.
Proof.
  split; [reflexivity|]. split; [vm_compute; reflexivity|].
  eexists. split; [vm_compute; reflexivity|]. repeat split.
Qed.

(** The same computation is exact at other counts, for instance 30 of 100,
    and one too low again at 57 and at 58 of 100. *)
Example percentage_30_of_100 :
  percentage (mkStatus 100 30 0 0) = Ok 30 /\ percentage (mkStatus 10 3 0 0) = Ok 30.
Proof. split; vm_compute; reflexivity. Qed.

Example percentage_57_of_100 :
  percentage (mkStatus 100 57 0 0) = Ok 56 /\ percentage (mkStatus 100 58 0 0) = Ok 57.
Proof. split; vm_compute; reflexivity. Qed.

(* ------------------------------------------------------------------ *)
(** ** The upload pipeline: [upload_files] and [bulk_upload_files] *)

Section Pipeline.

Variable network : list Request -> Request -> net_result.
Variable clock : nat -> Z.
Variable fs : string -> option Z.
Variable backend_dataset_upload : atom -> atom.
Variable resolve : list string -> bool -> res (list string).

(** The arguments shared by the batches of one bulk upload. *)
Variable self : BaseAPI.
Variables dataset_id annotation_task folder_id annotation_set_id : atom.
Variable class_encoding : option (list (string * atom)).

Let upload (bulk : list string) : M (World * UploadStatus) json :=
  upload_files network clock fs backend_dataset_upload self dataset_id bulk
               annotation_task folder_id annotation_set_id class_encoding.

Let upload_url : res string :=
  url self (backend_dataset_upload dataset_id) []
      [("folder_id", QAtom folder_id); ("annotation_set_id", QAtom annotation_set_id)].

(** The request that carries a batch. *)
Let request_of (u : string) (bulk : list string) : Request :=
  mkRequest POST u (Authorization (token self))
            (Multipart bulk (upload_data annotation_task class_encoding)).

Lemma open_all (files : list string) :
  all_exist fs files -> map_res (open_rb fs) files = Ok files.
Proof.
  induction 1 as [|p files Hp _ IH]; simpl; [reflexivity|].
  unfold open_rb at 1. destruct (fs p); [|congruence].
  simpl. rewrite IH. reflexivity.
Qed.

Lemma open_all_inv (files files' : list string) :
  map_res (open_rb fs) files = Ok files' -> files' = files /\ all_exist fs files.
Proof.
  revert files'. induction files as [|p files IH]; simpl; intros files' H.
  - inversion H. split; [reflexivity | constructor].
  - unfold open_rb at 1 in H. destruct (fs p) eqn:Ep; [|discriminate]. simpl in H.
    destruct (map_res (open_rb fs) files) as [l|e]; [|discriminate].
    destruct (IH l eq_refl) as (-> & Hex). inversion H. split; [reflexivity|].
    constructor; [congruence | exact Hex].
Qed.

(** What [upload_files] does once the server has answered, whatever the
    status: the status decides only whether the warning is printed. *)
Lemma upload_files_answered (bulk : list string) (u : string) (r : Response)
      (w : World) (st : UploadStatus) :
  token self <> JNull ->
  all_exist fs bulk ->
  upload_url = Ok u ->
  network (sent w) (request_of u bulk) = Answered r ->
  upload bulk (w, st)
  = let out := if negb (status_code r =? HTTP_OK)
               then (stdout w ++ [PossibleError (text r) bulk])%list
               else stdout w in
    let w1 := mkWorld (sent w ++ [request_of u bulk]) out (reads w) in
    match progress clock (w1, update (Z.of_nat (List.length bulk)) st) with
    | (Ok _, ws) => (resp_json r, ws)
    | (Raise e, ws) => (Raise e, ws)
    end.
Proof.
  intros Htok Hex Hu Hnet.
  unfold upload, upload_files. unfold bind at 1. unfold lift_res at 1.
  rewrite (open_all _ Hex). unfold bind at 1. unfold lift_res at 1.
  fold upload_url. rewrite Hu. unfold bind at 1.
  unfold on_fst at 1. rewrite (authenticated_post _ _ _ _ _ Htok).
  unfold requests_send. simpl fst. fold (request_of u bulk). rewrite Hnet.
  cbv zeta. simpl snd.
  destruct (negb (status_code r =? HTTP_OK)).
  - unfold bind, on_fst, print, modify, lift_res; simpl.
    destruct (progress clock _) as [[[]|e] ws]; reflexivity.
  - unfold bind, ret, modify, lift_res; simpl.
    destruct (progress clock _) as [[[]|e] ws]; reflexivity.
Qed.


(** Whatever happens to a batch, its request is the one thing sent. *)
Lemma upload_files_sends (bulk : list string) (u : string) (ws : World * UploadStatus) :
  token self <> JNull ->
  all_exist fs bulk ->
  upload_url = Ok u ->
  sent (fst (snd (upload bulk ws))) = (sent (fst ws) ++ [request_of u bulk])%list.
Proof.
  intros Htok Hex Hu. destruct ws as [w st].
  destruct (network (sent w) (request_of u bulk)) as [|r] eqn:Enet.
  - unfold upload, upload_files, bind, lift_res. rewrite (open_all _ Hex).
    fold upload_url. rewrite Hu.
    unfold on_fst. rewrite (authenticated_post _ _ _ _ _ Htok).
    unfold requests_send. simpl. fold (request_of u bulk). rewrite Enet. reflexivity.
  - rewrite (upload_files_answered bulk u r w st Htok Hex Hu Enet). cbv zeta.
    match goal with |- context [progress clock ?x] => pose proof (progress_sent clock x) as Hs end.
    destruct (progress clock _) as [[[]|e] ws1]; simpl in *; exact Hs.
Qed.

(** ** The executor *)

Lemma executor_map_state {S A B} (f : A -> M S B) (l : list A) (s : S) :
  snd (executor_map f l s) = snd (submit_all f l s).
Proof. unfold executor_map. destruct (submit_all f l s). reflexivity. Qed.

Lemma executor_map_results {S A B} (f : A -> M S B) (l : list A) (s : S) :
  fst (executor_map f l s) = result_iterator (fst (submit_all f l s)).
Proof. unfold executor_map. destruct (submit_all f l s). reflexivity. Qed.

(** Every task is run: the tasks after one that raised, or that returned
    the body of a failure, start from the state it left. *)
Lemma submit_all_app {S A B} (f : A -> M S B) (before after : list A) (s : S) :
  submit_all f (before ++ after) s
  = let '(rs1, s1) := submit_all f before s in
    let '(rs2, s2) := submit_all f after s1 in
    ((rs1 ++ rs2)%list, s2).
Proof.
  revert s. induction before as [|x before IH]; intros s; simpl.
  - destruct (submit_all f after s). reflexivity.
  - destruct (f x s) as [r s1]. rewrite IH.
    destruct (submit_all f before s1) as [rs1 s2].
    destruct (submit_all f after s2). reflexivity.
Qed.

Lemma executor_map_later {S A B} (f : A -> M S B) (before after : list A) (x : A) (s : S) :
  snd (executor_map f (before ++ x :: after) s)
  = snd (executor_map f after (snd (f x (snd (executor_map f before s))))).
Proof.
  rewrite !executor_map_state, submit_all_app. simpl.
  destruct (submit_all f before s) as [rs1 s1]. simpl.
  destruct (f x s1) as [r s2]. simpl.
  destruct (submit_all f after s2). reflexivity.
Qed.

Lemma submit_all_length {S A B} (f : A -> M S B) (l : list A) (s : S) :
  List.length (fst (submit_all f l s)) = List.length l.
Proof.
  revert s. induction l as [|x l IH]; intros s; simpl; [reflexivity|].
  destruct (f x s) as [r s1]. specialize (IH s1).
  destruct (submit_all f l s1). simpl in *. now rewrite IH.
Qed.


(** *** Reading the iterator *)

Lemma result_iterator_length {B} (futures : list (res B)) :
  (List.length (result_iterator futures) <= List.length futures)%nat.
Proof.
  induction futures as [|[b|e] rest IH]; simpl; lia.
Qed.




Lemma result_iterator_all {B} (values : list B) :
  result_iterator (map Ok values) = map Ok values.
Proof. induction values as [|b values IH]; simpl; [reflexivity | now rewrite IH]. Qed.

Lemma result_iterator_raised {B} (values : list B) (e : exn) (rest : list (res B)) :
  result_iterator (map Ok values ++ Raise e :: rest) = (map Ok values ++ [Raise e])%list.
Proof. induction values as [|b values IH]; simpl; [reflexivity | now rewrite IH]. Qed.

Lemma submit_all_sent (u : string) (groups : list (list string)) (ws : World * UploadStatus) :
  token self <> JNull ->
  Forall (all_exist fs) groups ->
  upload_url = Ok u ->
  sent (fst (snd (submit_all upload groups ws)))
  = (sent (fst ws) ++ map (request_of u) groups)%list.
Proof.
  intros Htok Hex Hu. revert ws.
  induction Hex as [|g groups Hg _ IH]; intros ws; simpl.
  - now rewrite app_nil_r.
  - pose proof (upload_files_sends g u ws Htok Hg Hu) as Hs.
    destruct (upload g ws) as [r ws1]. specialize (IH ws1).
    destruct (submit_all upload groups ws1) as [rs ws2]. simpl in *.
    rewrite IH, Hs, <- app_assoc. reflexivity.
Qed.

(** The files of the batches are the files that were split. *)
Lemma split_loop_all_exist (files : list string) :
  forall groups bulk total gs,
    split_loop fs files groups bulk total = Ok gs -> all_exist fs files.
Proof.
  induction files as [|p files IH]; intros groups bulk total gs H; [constructor|].
  simpl in H. unfold os_getsize in H. destruct (fs p) as [n|] eqn:Ep; [|discriminate].
  simpl in H. constructor; [congruence|].
  destruct (total + n >=? bulk_size); eapply IH; exact H.
Qed.

Lemma all_exist_concat (gs : list (list string)) :
  all_exist fs (List.concat gs) -> Forall (all_exist fs) gs.
Proof.
  induction gs as [|g gs IH]; simpl; intros H; [constructor|].
  apply Forall_app in H. destruct H as (Hg & Hgs).
  constructor; [exact Hg | exact (IH Hgs)].
Qed.

Lemma split_groups_exist (files : list string) (groups : list (list string)) :
  split_files_by_size fs files = Ok groups -> Forall (all_exist fs) groups.
Proof.
  intros H. pose proof (split_loop_all_exist _ _ _ _ _ H) as Hex.
  destruct (split_loop_batches fs files [] [] 0 Hex eq_refl) as (gs & Hrun & Hcat & _).
  { intros p q E. destruct p; [simpl; unfold bulk_size; lia | discriminate]. }
  unfold split_files_by_size in H. rewrite Hrun in H. inversion H; subst.
  apply all_exist_concat. simpl. rewrite Hcat. exact Hex.
Qed.

Lemma bulk_upload_files_runs (files_to_upload files : list string)
      (groups : list (list string)) (w : World) :
  resolve files_to_upload (negb (is_none annotation_task)) = Ok files ->
  split_files_by_size fs files = Ok groups ->
  bulk_upload_files network clock fs backend_dataset_upload resolve self dataset_id
                    files_to_upload annotation_task folder_id annotation_set_id class_encoding w
  = let status := mkStatus (Z.of_nat (List.length files)) 0 (clock (reads w)) 0 in
    let w1 := mkWorld (sent w) (stdout w) (S (reads w)) in
    (Ok (fst (executor_map upload groups (w1, status))),
     fst (snd (executor_map upload groups (w1, status)))).
Proof.
  intros Hres Hsplit. unfold bulk_upload_files. rewrite Hres. simpl. rewrite Hsplit. simpl.
  unfold UploadStatus_init, bind, now, ret. simpl. fold upload.
  destruct (executor_map upload groups _) as [results ws]. reflexivity.
Qed.

(** [progress] leaves the counts and the starting time alone. *)
Lemma progress_keeps_counts (ws : World * UploadStatus) :
  total_count (snd (snd (progress clock ws))) = total_count (snd ws) /\
  current_count (snd (snd (progress clock ws))) = current_count (snd ws) /\
  start (snd (snd (progress clock ws))) = start (snd ws).
Proof.
  destruct ws as [w st]. unfold progress, bind, lift_res. simpl.
  destruct (percentage st) as [p|e]; [|simpl; auto].
  destruct (p >? reported_progress st); [|simpl; auto].
  unfold on_fst, now. simpl.
  destruct (make_report p (clock (reads w)) st); simpl; auto.
Qed.

(** [progress] only adds to what was printed. *)
Lemma progress_stdout (ws : World * UploadStatus) :
  exists rest, stdout (fst (snd (progress clock ws))) = (stdout (fst ws) ++ rest)%list.
Proof.
  destruct ws as [w st]. unfold progress, bind, lift_res. simpl.
  destruct (percentage st) as [p|e]; [|exists []; simpl; now rewrite app_nil_r].
  destruct (p >? reported_progress st); [|exists []; simpl; now rewrite app_nil_r].
  unfold on_fst, now. simpl.
  destruct (make_report p (clock (reads w)) st) as [rep|e]; simpl.
  - exists [Progress rep]. reflexivity.
  - exists []. now rewrite app_nil_r.
Qed.

(** C6: for a client with a token, whatever the server answers. A batch
    answered with a status other than 200 prints a line with the text of
    the response and the files of the batch; then the tracker's count is
    raised by the number of files of the batch and [progress] is called on
    it, which records the new percentage and prints a progress line when
    the percentage has grown; the batch then gives [r.json()]. The batches
    after it are run from the state it left. In all, [bulk_upload_files]
    raises nothing and has sent the request of every batch. *)
Theorem failed_batch_does_not_abort (u : string) :
  token self <> JNull ->
  upload_url = Ok u ->
  (forall bulk r w st,
      all_exist fs bulk ->
      network (sent w) (request_of u bulk) = Answered r ->
      status_code r <> HTTP_OK ->
      let counted := mkStatus (total_count st)
                              (current_count st + Z.of_nat (List.length bulk))
                              (start st) (reported_progress st) in
      let recorded p := mkStatus (total_count st)
                                 (current_count st + Z.of_nat (List.length bulk))
                                 (start st) p in
      let warned := mkWorld (sent w ++ [request_of u bulk])
                            (stdout w ++ [PossibleError (text r) bulk]) (reads w) in
      upload bulk (w, st)
      = match progress clock (warned, counted) with
        | (Ok _, ws) => (resp_json r, ws)
        | (Raise e, ws) => (Raise e, ws)
        end /\
      sent (fst (snd (upload bulk (w, st)))) = (sent w ++ [request_of u bulk])%list /\
      (exists rest, stdout (fst (snd (upload bulk (w, st))))
                    = (stdout w ++ PossibleError (text r) bulk :: rest)%list) /\
      total_count (snd (snd (upload bulk (w, st)))) = total_count st /\
      current_count (snd (snd (upload bulk (w, st))))
      = current_count st + Z.of_nat (List.length bulk) /\
      (forall p,
          percentage counted = Ok p ->
          p <= reported_progress st ->
          upload bulk (w, st) = (resp_json r, (warned, recorded p))) /\
      (forall p rep,
          percentage counted = Ok p ->
          reported_progress st < p ->
          make_report p (clock (reads w)) counted = Ok rep ->
          upload bulk (w, st)
          = (resp_json r,
             (mkWorld (sent w ++ [request_of u bulk])
                      (stdout w ++ [PossibleError (text r) bulk; Progress rep])
                      (S (reads w)),
              recorded p)))) /\
  (forall before bulk after ws,
      snd (executor_map upload (before ++ bulk :: after) ws)
      = snd (executor_map upload after
               (snd (upload bulk (snd (executor_map upload before ws)))))) /\
  (forall files_to_upload files groups w,
      resolve files_to_upload (negb (is_none annotation_task)) = Ok files ->
      split_files_by_size fs files = Ok groups ->
      exists results w',
        bulk_upload_files network clock fs backend_dataset_upload resolve self dataset_id
                          files_to_upload annotation_task folder_id annotation_set_id
                          class_encoding w
        = (Ok results, w') /\
        sent w' = (sent w ++ map (request_of u) groups)%list /\
        (List.length results <= List.length groups)%nat).
Proof.
  intros Htok Hu. split; [|split].
  - intros bulk r w st Hex Hnet Hst counted recorded warned.
    assert (Hrun : upload bulk (w, st)
                   = match progress clock (warned, counted) with
                     | (Ok _, ws) => (resp_json r, ws)
                     | (Raise e, ws) => (Raise e, ws)
                     end).
    { rewrite (upload_files_answered bulk u r w st Htok Hex Hu Hnet).
      apply Z.eqb_neq in Hst. rewrite Hst. reflexivity. }
    pose proof (progress_keeps_counts (warned, counted)) as (Ht & Hc & _).
    pose proof (progress_stdout (warned, counted)) as (rest & Hout).
    pose proof (progress_sent clock (warned, counted)) as Hsent.
    split; [exact Hrun|]. rewrite Hrun.
    destruct (progress clock (warned, counted)) as [[[]|e] ws] eqn:Ep;
      simpl in Ht, Hc, Hout, Hsent |- *.
    + split; [exact Hsent|]. split; [exists rest; rewrite Hout, <- app_assoc; reflexivity|].
      split; [exact Ht|]. split; [exact Hc|]. split.
      * intros p Hp Hle.
        rewrite (progress_silent clock warned counted p Hp Hle) in Ep.
        inversion Ep; subst. reflexivity.
      * intros p rep Hp Hlt Hrep.
        rewrite (progress_reports clock warned counted p rep Hp Hlt Hrep) in Ep.
        inversion Ep; subst. simpl. rewrite <- app_assoc. reflexivity.
    + split; [exact Hsent|]. split; [exists rest; rewrite Hout, <- app_assoc; reflexivity|].
      split; [exact Ht|]. split; [exact Hc|]. split.
      * intros p Hp Hle.
        rewrite (progress_silent clock warned counted p Hp Hle) in Ep. discriminate.
      * intros p rep Hp Hlt Hrep.
        rewrite (progress_reports clock warned counted p rep Hp Hlt Hrep) in Ep. discriminate.
  - intros before bulk after ws. apply executor_map_later.
  - intros files_to_upload files groups w Hres Hsplit.
    rewrite (bulk_upload_files_runs _ _ _ _ Hres Hsplit). cbv zeta.
    eexists. eexists. split; [reflexivity|]. split.
    + rewrite executor_map_state.
      rewrite (submit_all_sent u groups _ Htok (split_groups_exist _ _ Hsplit) Hu).
      reflexivity.
    + rewrite executor_map_results.
      match goal with
      | |- context [submit_all upload groups ?x] =>
          rewrite <- (submit_all_length upload groups x)
      end.
      apply result_iterator_length.
Qed.


End Pipeline.

(** *** The pipeline on five files of 2 MiB, the first batch failing *)

Lemma failed_batch_does_not_abort_witness :
  (exists rep,
      upload_files net_first_fails sample_clock sample_fs sample_upload sample_api (AInt 3)
                   ["f1"; "f2"; "f3"; "f4"] ANone ANone ANone None (world0, mkStatus 5 0 0 0)
      = (Ok (JArr [JNum 1]),
         (mkWorld [mkRequest POST "http://localhost:8000/api/dataset/3/upload"
                             (Authorization (JStr "abc"))
                             (Multipart ["f1"; "f2"; "f3"; "f4"] [])]
                  [PossibleError "[1]" ["f1"; "f2"; "f3"; "f4"]; Progress rep] 1,
          mkStatus 5 4 0 80)) /\
      r_percentage rep = 80 /\ r_current rep = 4 /\ r_total rep = 5) /\
  exists results w',
    bulk_upload_files net_first_fails sample_clock sample_fs sample_upload sample_resolve
                      sample_api (AInt 3) five_files ANone ANone ANone None world0
    = (Ok results, w') /\
    sent w' = [mkRequest POST "http://localhost:8000/api/dataset/3/upload"
                         (Authorization (JStr "abc")) (Multipart ["f1"; "f2"; "f3"; "f4"] []);
               mkRequest POST "http://localhost:8000/api/dataset/3/upload"
                         (Authorization (JStr "abc")) (Multipart ["f5"] [])] /\
    (List.length results <= 2)%nat.
Proof.
  assert (Htok : token sample_api <> JNull) by discriminate.
  pose proof (failed_batch_does_not_abort net_first_fails sample_clock sample_fs sample_upload
                sample_resolve sample_api (AInt 3) ANone ANone ANone None
                "http://localhost:8000/api/dataset/3/upload" Htok eq_refl) as (H1 & _ & H3).
  split.
  - assert (Hex : all_exist sample_fs ["f1"; "f2"; "f3"; "f4"])
      by (repeat (constructor; [vm_compute; discriminate|]); constructor).
    assert (Hst : status_code resp_error <> HTTP_OK) by discriminate.
    destruct (H1 ["f1"; "f2"; "f3"; "f4"] resp_error world0 (mkStatus 5 0 0 0) Hex eq_refl Hst)
      as (_ & _ & _ & _ & _ & _ & Hrep).
    eexists. split.
    + apply (Hrep 80).
      * vm_compute. reflexivity.
      * vm_compute. reflexivity.
      * vm_compute. reflexivity.
    + repeat split.
  - exact (H3 five_files five_files [["f1"; "f2"; "f3"; "f4"]; ["f5"]] world0 eq_refl eq_refl).
Defined.



(* ------------------------------------------------------------------ *)
(** ** Fixed-size groups: [chunks] *)

Lemma firstn_add {A} (a b : nat) (l : list A) :
  firstn (a + b) l = (firstn a l ++ firstn b (skipn a l))%list.
Proof.
  revert l. induction a as [|a IH]; intros l; [reflexivity|].
  destruct l as [|x l]; simpl.
  - now rewrite firstn_nil.
  - now rewrite IH.
Qed.

(** The pieces [l[k*c : k*c + c]] for [k] below [m] make up the first
    [m * c] items. *)
Lemma concat_pieces {A} (c m : nat) (l : list A) :
  List.concat (map (fun k => firstn c (skipn (k * c) l)) (seq 0 m)) = firstn (m * c) l.
Proof.
  induction m as [|m IH]; [reflexivity|].
  rewrite seq_S, map_app, concat_app, IH. simpl.
  rewrite app_nil_r, (Nat.add_comm c (m * c)). symmetry. apply firstn_add.
Qed.

(** A slice that starts at an index of the list and has a positive width. *)
Lemma py_slice_piece {A} (l : list A) (i c : nat) :
  (0 < c)%nat ->
  py_slice l (Z.of_nat i) (Z.of_nat i + Z.of_nat c) = firstn c (skipn i l).
Proof.
  intros Hc. unfold py_slice, slice_index.
  replace (Z.of_nat i <? 0) with false by (symmetry; apply Z.ltb_ge; lia).
  replace (Z.of_nat i + Z.of_nat c <? 0) with false by (symmetry; apply Z.ltb_ge; lia).
  destruct (Nat.le_gt_cases i (List.length l)) as [Hi|Hi].
  - rewrite (Z.min_l (Z.of_nat i)) by lia. rewrite Nat2Z.id.
    destruct (Nat.le_gt_cases (i + c) (List.length l)) as [Hic|Hic].
    + rewrite Z.min_l by lia. f_equal. lia.
    + rewrite Z.min_r by lia.
      rewrite (firstn_all2 (n := c)) by (rewrite length_skipn; lia).
      apply firstn_all2. rewrite length_skipn. lia.
  - rewrite !Z.min_r by lia. rewrite Z.sub_diag, Nat2Z.id. simpl.
    rewrite (skipn_all2 (n := i)) by lia.
    now rewrite firstn_nil.
Qed.

(** The number of groups for [n] items in groups of [c]. *)
Lemma chunk_count (n c : nat) :
  (0 < c)%nat ->
  Z.to_nat (if 0 <? Z.of_nat n then (Z.of_nat n - 0 - 1) / Z.of_nat c + 1 else 0)
  = match n with O => O | S n' => S (n' / c) end.
Proof.
  intros Hc. destruct n as [|n']; [reflexivity|].
  replace (0 <? Z.of_nat (S n')) with true by (symmetry; apply Z.ltb_lt; lia).
  replace (Z.of_nat (S n') - 0 - 1) with (Z.of_nat n') by lia.
  rewrite <- Nat2Z.inj_div. lia.
Qed.

Lemma chunks_pieces {A} (l : list A) (c : nat) :
  (0 < c)%nat ->
  chunks l (Z.of_nat c)
  = Ok (map (fun k => firstn c (skipn (k * c) l))
            (seq 0 (match List.length l with O => O | S n' => S (n' / c) end))).
Proof.
  intros Hc. unfold chunks, py_range.
  replace (Z.of_nat c =? 0) with false by (symmetry; apply Z.eqb_neq; lia).
  replace (0 <? Z.of_nat c) with true by (symmetry; apply Z.ltb_lt; lia).
  rewrite (chunk_count _ _ Hc). simpl. f_equal. rewrite map_map.
  apply map_ext. intros k.
  replace (Z.of_nat k * Z.of_nat c) with (Z.of_nat (k * c)) by lia.
  apply py_slice_piece. exact Hc.
Qed.

(** X1: for a positive [chunk_size], [chunks] cuts the list into groups
    that concatenate to it, none of them empty, all but the last of exactly
    [chunk_size] items and the last of at most that many, and there are
    [ceil(len / chunk_size)] of them. *)
Theorem chunks_partition {A} (my_list : list A) (chunk_size : Z) :
  0 < chunk_size ->
  exists groups,
    chunks my_list chunk_size = Ok groups /\
    List.concat groups = my_list /\
    Forall (fun g => g <> [] /\ Z.of_nat (List.length g) <= chunk_size) groups /\
    (forall before g, groups = (before ++ [g])%list ->
                      Forall (fun b => Z.of_nat (List.length b) = chunk_size) before) /\
    Z.of_nat (List.length groups)
    = (Z.of_nat (List.length my_list) + chunk_size - 1) / chunk_size.
Proof.
  intros Hpos.
  assert (Hc : (0 < Z.to_nat chunk_size)%nat) by lia.
  rewrite <- (Z2Nat.id chunk_size) by lia.
  set (c := Z.to_nat chunk_size) in *.
  set (n := List.length my_list).
  set (m := match n with O => O | S n' => S (n' / c) end).
  assert (Hcover : (n <= m * c)%nat).
  { subst m. destruct n as [|n']; [lia|].
    pose proof (Nat.div_mod_eq n' c). pose proof (Nat.mod_upper_bound n' c). nia. }
  assert (Hlast : forall k, (k < m)%nat -> (k * c < n)%nat).
  { subst m. intros k Hk. destruct n as [|n']; [lia|].
    pose proof (Nat.div_mod_eq n' c). nia. }
  assert (Hfull : forall k, (S k < m)%nat -> (k * c + c <= n)%nat).
  { subst m. intros k Hk. destruct n as [|n']; [lia|].
    pose proof (Nat.div_mod_eq n' c). nia. }
  exists (map (fun k => firstn c (skipn (k * c) my_list)) (seq 0 m)).
  split; [apply (chunks_pieces my_list c Hc)|]. split; [|split; [|split]].
  - rewrite concat_pieces. apply firstn_all2. exact Hcover.
  - apply Forall_forall. intros g Hg. apply in_map_iff in Hg.
    destruct Hg as (k & <- & Hk). apply in_seq in Hk.
    assert (Hlen : List.length (firstn c (skipn (k * c) my_list)) = Nat.min c (n - k * c))
      by (rewrite length_firstn, length_skipn; reflexivity).
    split.
    + intros E. rewrite E in Hlen. simpl in Hlen. specialize (Hlast k). lia.
    + rewrite Hlen. lia.
  - intros before g E. destruct m as [|m'].
    + destruct before; discriminate.
    + rewrite seq_S, map_app in E. simpl in E. apply app_inj_tail in E.
      destruct E as (<- & _).
      apply Forall_forall. intros b Hb. apply in_map_iff in Hb.
      destruct Hb as (k & <- & Hk). apply in_seq in Hk.
      rewrite length_firstn, length_skipn. fold n. specialize (Hfull k). lia.
  - rewrite length_map, length_seq. fold n. subst m.
    destruct n as [|n'].
    + simpl. symmetry. apply Z.div_small. lia.
    + replace (Z.of_nat (S n') + Z.of_nat c - 1) with (Z.of_nat n' + 1 * Z.of_nat c) by lia.
      rewrite Z.div_add by lia. rewrite <- Nat2Z.inj_div. lia.
Qed.

Lemma chunks_partition_witness :
  exists groups,
    chunks [1; 2; 3; 4; 5] 2 = Ok groups /\ List.concat groups = [1; 2; 3; 4; 5] /\
    Z.of_nat (List.length groups) = 3.
Proof.
  destruct (chunks_partition [1; 2; 3; 4; 5] 2 ltac:(lia)) as (groups & H1 & H2 & _ & _ & H5).
  exists groups. split; [exact H1|]. split; [exact H2 | exact H5].
Defined.

(** X2: a [chunk_size] of zero raises [ValueError]; with a negative
    [chunk_size] nothing is raised and the result is the empty list, whatever
    the list holds. *)
Theorem chunks_degenerate_size {A} (my_list : list A) (chunk_size : Z) :
  (chunk_size = 0 -> chunks my_list chunk_size = Raise ValueError) /\
  (chunk_size < 0 -> chunks my_list chunk_size = Ok []).
Proof.
  unfold chunks, py_range. split.
  - intros ->. reflexivity.
  - intros Hneg.
    replace (chunk_size =? 0) with false by (symmetry; apply Z.eqb_neq; lia).
    replace (0 <? chunk_size) with false by (symmetry; apply Z.ltb_ge; lia).
    replace (Z.of_nat (List.length my_list) <? 0) with false by (symmetry; apply Z.ltb_ge; lia).
    reflexivity.
Qed.

Lemma chunks_degenerate_size_witness :
  chunks [1; 2; 3] 0 = Raise ValueError /\ chunks [1; 2; 3] (-2) = Ok [].
Proof.
  split.
  - apply (proj1 (chunks_degenerate_size [1; 2; 3] 0)). reflexivity.
  - apply (proj2 (chunks_degenerate_size [1; 2; 3] (-2))). lia.
Defined.

Example chunks_ex :
  chunks ["a"; "b"; "c"; "d"; "e"] 2 = Ok [["a"; "b"]; ["c"; "d"]; ["e"]].
Proof. reflexivity. Qed.

(* ------------------------------------------------------------------ *)
(** ** More on [split_files_by_size] *)

Section BatchingMore.

Variable fs : string -> option Z.

Lemma split_loop_missing (before after : list string) (p : string) :
  forall groups bulk total,
    all_exist fs before ->
    fs p = None ->
    split_loop fs (before ++ p :: after) groups bulk total = Raise (FileNotFoundError p).
Proof.
  induction before as [|x before IH]; intros groups bulk total Hex Hp; simpl.
  - unfold os_getsize. rewrite Hp. reflexivity.
  - inversion Hex as [|? ? Hx Hrest]; subst.
    unfold os_getsize. destruct (fs x) as [n|]; [|congruence]. simpl.
    destruct (total + n >=? bulk_size); apply IH; assumption.
Qed.

(** X3: [split_files_by_size] returns batches exactly when every file
    exists; otherwise it raises the error of [os.path.getsize] for the first
    file that is missing, and no batch is returned. *)
Theorem split_files_by_size_missing_file (files : list string) :
  ((exists groups, split_files_by_size fs files = Ok groups) <-> all_exist fs files) /\
  (forall before p after,
      files = (before ++ p :: after)%list ->
      all_exist fs before ->
      fs p = None ->
      split_files_by_size fs files = Raise (FileNotFoundError p)).
Proof.
  split.
  - split.
    + intros (groups & H). exact (split_loop_all_exist fs _ _ _ _ _ H).
    + intros Hex.
      destruct (split_loop_batches fs files [] [] 0 Hex eq_refl) as (gs & Hrun & _).
      { intros p q E. destruct p; [simpl; unfold bulk_size; lia | discriminate]. }
      exists gs. exact Hrun.
  - intros before p after -> Hex Hp. now apply split_loop_missing.
Qed.

Lemma batches_each (gs : list (list string)) :
  batches fs gs ->
  Forall (fun g => g <> [] /\ batch_size fs (removelast g) < bulk_size) gs.
Proof.
  induction 1 as [|g (Hne & Hpre)|g gs (Hge & Hpre) _ IH].
  - constructor.
  - constructor; [|constructor]. split; [exact Hne|].
    apply (Hpre (removelast g) [last g ""]). now apply app_removelast_last.
  - constructor; [|exact IH].
    assert (Hne : g <> []).
    { intros ->. simpl in Hge. unfold bulk_size in Hge. lia. }
    split; [exact Hne|].
    apply (Hpre (removelast g) [last g ""]); [now apply app_removelast_last | discriminate].
Qed.

Lemma length_concat_nonempty {A} (gs : list (list A)) :
  Forall (fun g => g <> []) gs -> (List.length gs <= List.length (List.concat gs))%nat.
Proof.
  induction 1 as [|g gs Hg _ IH]; simpl; [lia|].
  rewrite length_app. destruct g; [congruence | simpl; lia].
Qed.

(** X4: no batch is empty, so there are at most as many batches as files;
    and a batch without its last file is below [bulk_size], so a batch is
    below [bulk_size] plus the size of its largest file: with files of at
    most [m] bytes, every batch is below [bulk_size + m]. *)
Theorem split_files_by_size_bounds (files : list string) (groups : list (list string)) (m : Z) :
  split_files_by_size fs files = Ok groups ->
  (forall p n, In p files -> fs p = Some n -> n <= m) ->
  (List.length groups <= List.length files)%nat /\
  Forall (fun g => g <> [] /\
                   batch_size fs (removelast g) < bulk_size /\
                   batch_size fs g < bulk_size + m) groups.
Proof.
  intros Hrun Hm.
  pose proof (split_loop_all_exist fs _ _ _ _ _ Hrun) as Hex.
  destruct (split_loop_batches fs files [] [] 0 Hex eq_refl) as (gs & Hrun' & Hcat & Hsh).
  { intros p q E. destruct p; [simpl; unfold bulk_size; lia | discriminate]. }
  unfold split_files_by_size in Hrun. rewrite Hrun' in Hrun. inversion Hrun; subst gs.
  simpl in Hcat. pose proof (batches_each _ Hsh) as Heach. split.
  - rewrite <- Hcat. apply length_concat_nonempty.
    eapply Forall_impl; [|exact Heach]. intros g (Hne & _). exact Hne.
  - apply Forall_forall. intros g Hg.
    pose proof (proj1 (Forall_forall _ _) Heach g Hg) as (Hne & Hpre).
    split; [exact Hne|]. split; [exact Hpre|].
    rewrite (app_removelast_last "" Hne) at 1. rewrite batch_size_app.
    change (batch_size fs [last g ""])
      with (match fs (last g "") with Some n => n + 0 | None => 0 end).
    assert (Hin : In (last g "") files).
    { rewrite <- Hcat. apply in_concat. exists g. split; [exact Hg|].
      rewrite (app_removelast_last "" Hne) at 2. apply in_or_app. right. now left. }
    destruct (fs (last g "")) as [n|] eqn:En.
    + specialize (Hm _ _ Hin En). lia.
    + exfalso. exact (proj1 (Forall_forall _ _) Hex _ Hin En).
Qed.

(** The loop run over the rest [q] of a batch that stays open. *)
Lemma split_loop_trailing (q : list string) :
  forall groups p,
    all_exist fs q ->
    (forall a b, (p ++ q)%list = (a ++ b)%list -> batch_size fs a < bulk_size) ->
    split_loop fs q groups p (batch_size fs p)
    = Ok (match (p ++ q)%list with [] => groups | _ => groups ++ [(p ++ q)%list] end)%list.
Proof.
  induction q as [|x q IH]; intros groups p Hex Hpre.
  - simpl. rewrite app_nil_r. reflexivity.
  - inversion Hex as [|? ? Hx Hq]; subst.
    destruct (fs x) as [n|] eqn:En; [|congruence].
    simpl. unfold os_getsize. rewrite En. simpl.
    assert (Hlt : batch_size fs (p ++ [x]) < bulk_size).
    { apply (Hpre (p ++ [x])%list q). now rewrite <- app_assoc. }
    rewrite (batch_size_snoc fs _ _ _ En) in Hlt.
    replace (batch_size fs p + n >=? bulk_size) with false
      by (symmetry; rewrite Z.geb_leb; apply Z.leb_gt; lia).
    rewrite <- (batch_size_snoc fs _ _ _ En).
    rewrite (IH groups (p ++ [x])%list Hq).
    + rewrite <- app_assoc. simpl. destruct (p ++ x :: q)%list eqn:E; [|reflexivity].
      destruct p; discriminate.
    + intros a b E. apply (Hpre a b). rewrite <- E, <- app_assoc. reflexivity.
Qed.

(** The loop run over the rest [q] of a batch that closes with its last
    file. *)
Lemma split_loop_closed (q rest : list string) :
  forall groups p,
    q <> [] ->
    all_exist fs q ->
    closed_batch fs (p ++ q) ->
    split_loop fs (q ++ rest) groups p (batch_size fs p)
    = split_loop fs rest (groups ++ [(p ++ q)%list]) [] 0.
Proof.
  induction q as [|x q IH]; intros groups p Hne Hex (Hge & Hpre); [congruence|].
  inversion Hex as [|? ? Hx Hq]; subst.
  destruct (fs x) as [n|] eqn:En; [|congruence].
  simpl. unfold os_getsize. rewrite En. simpl.
  destruct q as [|y q].
  - rewrite (batch_size_snoc fs _ _ _ En) in Hge.
    replace (batch_size fs p + n >=? bulk_size) with true
      by (symmetry; rewrite Z.geb_leb; apply Z.leb_le; lia).
    reflexivity.
  - assert (Hlt : batch_size fs (p ++ [x]) < bulk_size).
    { apply (Hpre (p ++ [x])%list (y :: q)); [now rewrite <- app_assoc | discriminate]. }
    rewrite (batch_size_snoc fs _ _ _ En) in Hlt.
    replace (batch_size fs p + n >=? bulk_size) with false
      by (symmetry; rewrite Z.geb_leb; apply Z.leb_gt; lia).
    rewrite <- (batch_size_snoc fs _ _ _ En).
    rewrite (IH groups (p ++ [x])%list); [| discriminate | exact Hq |].
    + now rewrite <- app_assoc.
    + rewrite <- app_assoc. split; [exact Hge | exact Hpre].
Qed.

(** X5: the shape determines the batches. A division of the files into
    batches that each reached [bulk_size] exactly with their last file,
    followed by at most one non-empty batch that stayed below it, is what
    [split_files_by_size] returns. *)
Theorem split_files_by_size_unique (groups : list (list string)) :
  all_exist fs (List.concat groups) ->
  batches fs groups ->
  split_files_by_size fs (List.concat groups) = Ok groups.
Proof.
  intros Hex Hsh. unfold split_files_by_size.
  induction Hsh as [|g (Hne & Hpre)|g gs Hclosed Hsh IH].
  - reflexivity.
  - cbn [List.concat] in *. rewrite app_nil_r in *.
    change (split_loop fs g [] [] 0) with (split_loop fs g [] [] (batch_size fs [])).
    rewrite (split_loop_trailing g [] [] Hex Hpre). cbn [app].
    destruct g; [congruence | reflexivity].
  - cbn [List.concat] in *. apply Forall_app in Hex. destruct Hex as (Hg & Hgs).
    assert (Hne : g <> []).
    { intros ->. destruct Hclosed as (Hge & _). simpl in Hge. unfold bulk_size in Hge. lia. }
    change (split_loop fs (g ++ List.concat gs) [] [] 0)
      with (split_loop fs (g ++ List.concat gs) [] [] (batch_size fs [])).
    rewrite (split_loop_closed g (List.concat gs) [] [] Hne Hg Hclosed).
    rewrite split_loop_groups, (IH Hgs). reflexivity.
Qed.

Lemma batch_size_prefix (a b : list string) :
  (forall p n, In p b -> fs p = Some n -> 0 <= n) ->
  batch_size fs a <= batch_size fs (a ++ b).
Proof.
  intros Hpos. rewrite batch_size_app.
  assert (0 <= batch_size fs b); [|lia].
  induction b as [|x b IH]; simpl; [lia|].
  assert (0 <= batch_size fs b) by (apply IH; intros p n Hin; apply Hpos; now right).
  destruct (fs x) as [n|] eqn:En; [|assumption].
  specialize (Hpos x n (or_introl eq_refl) En). lia.
Qed.

(** X6: files that together stay below [bulk_size] go out as one batch, in
    the order given (sizes are not negative). *)
Theorem split_files_by_size_small_total (files : list string) :
  files <> [] ->
  all_exist fs files ->
  (forall p n, In p files -> fs p = Some n -> 0 <= n) ->
  batch_size fs files < bulk_size ->
  split_files_by_size fs files = Ok [files].
Proof.
  intros Hne Hex Hpos Hsmall. unfold split_files_by_size.
  change (split_loop fs files [] [] 0) with (split_loop fs files [] [] (batch_size fs [])).
  rewrite (split_loop_trailing files [] [] Hex).
  - simpl. destruct files; [congruence | reflexivity].
  - simpl. intros a b E. subst files.
    pose proof (batch_size_prefix a b) as Hle.
    assert (batch_size fs a <= batch_size fs (a ++ b)); [|lia].
    apply Hle. intros p n Hin. apply Hpos. apply in_or_app. now right.
Qed.

End BatchingMore.

Lemma split_files_by_size_unique_witness :
  split_files_by_size sample_fs ["f1"; "big"; "f2"] = Ok [["f1"; "big"]; ["f2"]].
Proof.
  apply (split_files_by_size_unique sample_fs [["f1"; "big"]; ["f2"]]).
  - repeat (constructor; [vm_compute; discriminate|]). constructor.
  - apply batches_cons; [|apply batches_last].
    + split; [vm_compute; discriminate|].
      intros p q E Hq. destruct p as [|a [|b [|c p]]]; simpl in E.
      * vm_compute. reflexivity.
      * inversion E; subst. vm_compute. reflexivity.
      * inversion E; subst. congruence.
      * inversion E.
    + split; [discriminate|].
      intros p q E. destruct p as [|a [|b p]]; simpl in E.
      * vm_compute. reflexivity.
      * inversion E; subst. vm_compute. reflexivity.
      * inversion E.
Defined.

Lemma split_files_by_size_missing_file_witness :
  split_files_by_size sample_fs ["f1"; "nowhere"; "f2"] = Raise (FileNotFoundError "nowhere").
Proof.
  apply (proj2 (split_files_by_size_missing_file sample_fs ["f1"; "nowhere"; "f2"])
               ["f1"] "nowhere" ["f2"]).
  - reflexivity.
  - repeat (constructor; [vm_compute; discriminate|]). constructor.
  - reflexivity.
Defined.

Lemma split_files_by_size_bounds_witness :
  (List.length [["f1"; "big"]; ["f2"; "f3"]] <= List.length ["f1"; "big"; "f2"; "f3"])%nat /\
  Forall (fun g => g <> [] /\
                   batch_size sample_fs (removelast g) < bulk_size /\
                   batch_size sample_fs g < bulk_size + 9 * MiB)
         [["f1"; "big"]; ["f2"; "f3"]].
Proof.
  apply (split_files_by_size_bounds sample_fs ["f1"; "big"; "f2"; "f3"]
           [["f1"; "big"]; ["f2"; "f3"]] (9 * MiB)).
  - reflexivity.
  - intros p n Hin E. simpl in Hin.
    destruct Hin as [<-|[<-|[<-|[<-|[]]]]]; vm_compute in E; inversion E; vm_compute; discriminate.
Defined.

Lemma split_files_by_size_small_total_witness :
  split_files_by_size sample_fs ["f1"; "f2"; "f3"] = Ok [["f1"; "f2"; "f3"]].
Proof.
  apply (split_files_by_size_small_total sample_fs ["f1"; "f2"; "f3"]).
  - discriminate.
  - repeat (constructor; [vm_compute; discriminate|]). constructor.
  - intros p n Hin E. simpl in Hin.
    destruct Hin as [<-|[<-|[<-|[]]]]; vm_compute in E; inversion E; vm_compute; discriminate.
  - vm_compute. reflexivity.
Defined.

(* ------------------------------------------------------------------ *)
(** ** More on [_build_url] *)

Lemma str_of_int_not_empty (n : Z) : str_of_int n <> "".
Proof.
  unfold str_of_int, NilZero.string_of_int, NilZero.string_of_uint.
  destruct (Z.to_int n) as [d|d]; destruct d; discriminate.
Qed.

Lemma py_str_empty (a : atom) : py_str a = "" <-> a = AStr "".
Proof.
  split; [|intros ->; reflexivity].
  destruct a as [|[|]|n|s]; simpl; try discriminate.
  - intros H. now apply str_of_int_not_empty in H.
  - intros ->. reflexivity.
Qed.

Lemma last_char_empty (s : string) : last_char s = Raise IndexError_string <-> s = "".
Proof.
  split; [|intros ->; reflexivity].
  intros H. destruct s as [|a s]; [reflexivity|].
  destruct (last_char_ok (String a s)) as (c & Hc); [discriminate|]. congruence.
Qed.

(** X7: [_build_url] returns a URL exactly when some positional argument is
    not [None] and the last such argument is not the empty string, whatever
    the keyword arguments; with [''] as the last segment it raises the
    [IndexError] of indexing an empty string, also when [tail_slash] is
    given. *)
Theorem build_url_returns_iff (args : list atom) (kwargs : kwargs_t) :
  ((exists u, _build_url args kwargs = Ok u)
   <-> segments args <> [] /\ last (segments args) ANone <> AStr "") /\
  (segments args <> [] -> last (segments args) ANone = AStr "" ->
   _build_url args kwargs = Raise IndexError_string).
Proof.
  assert (Hnil : segments args = [] -> _build_url args kwargs = Raise IndexError_list).
  { intros E. unfold _build_url. fold (segments args). rewrite E. reflexivity. }
  assert (Hstr : segments args <> [] -> last (segments args) ANone = AStr "" ->
                 _build_url args kwargs = Raise IndexError_string).
  { intros Hne E. unfold _build_url. fold (segments args).
    rewrite (last_item_ok _ ANone Hne), E. reflexivity. }
  split; [|exact Hstr]. split.
  - intros (u & Hu). split.
    + intros E. rewrite (Hnil E) in Hu. discriminate.
    + intros E. destruct (segments args) eqn:Es; [discriminate|].
      rewrite Hstr in Hu; [discriminate | discriminate | exact E].
  - intros (Hne & Hlast).
    assert (Hs : py_str (last (segments args) ANone) <> "")
      by (intros E; apply py_str_empty in E; contradiction).
    destruct (last_char_ok _ Hs) as (c & Hc).
    unfold _build_url. fold (segments args).
    rewrite (last_item_ok _ ANone Hne). simpl. rewrite Hc. simpl.
    destruct (kw_pop _ _ _) as [flag kw].
    destruct (render_params kw); [|eexists; reflexivity].
    destruct (_ && _); eexists; reflexivity.
Qed.

Lemma build_url_returns_iff_witness :
  (exists u, _build_url [AStr "http://s"; AInt 0] [("limit", QAtom (AInt 5))] = Ok u) /\
  _build_url [AStr "http://s"; AStr ""; ANone] [("tail_slash", QAtom (ABool false))]
  = Raise IndexError_string.
Proof.
  split.
  - apply (proj1 (build_url_returns_iff [AStr "http://s"; AInt 0] [("limit", QAtom (AInt 5))])).
    split; discriminate.
  - apply (proj2 (build_url_returns_iff [AStr "http://s"; AStr ""; ANone]
                    [("tail_slash", QAtom (ABool false))])).
    + discriminate.
    + reflexivity.
Defined.

(** *** Slashes around a segment *)

Lemma rstrip_snoc (c : ascii) (s : string) :
  rstrip c (s ++ String c "") = rstrip c s.
Proof.
  induction s as [|a s IH]; simpl.
  - now rewrite Ascii.eqb_refl.
  - now rewrite IH.
Qed.

Lemma strip_cons (c : ascii) (s : string) : strip c (String c s) = strip c s.
Proof. unfold strip. simpl. now rewrite Ascii.eqb_refl. Qed.

Lemma strip_snoc (c : ascii) (s : string) : strip c (s ++ String c "") = strip c s.
Proof.
  unfold strip. induction s as [|a s IH]; simpl.
  - now rewrite Ascii.eqb_refl.
  - destruct (Ascii.eqb a c); [exact IH|].
    change (String a (s ++ String c "")) with (String a s ++ String c "").
    apply rstrip_snoc.
Qed.

Lemma segments_app (args1 args2 : list atom) :
  segments (args1 ++ args2) = (segments args1 ++ segments args2)%list.
Proof. apply filter_app. Qed.

Lemma last_item_app {A} (l1 l2 : list A) :
  l2 <> [] -> last_item (l1 ++ l2) = last_item l2.
Proof.
  intros Hne. induction l1 as [|a l1 IH]; [reflexivity|].
  simpl. destruct (l1 ++ l2)%list eqn:E; [|exact IH].
  apply app_eq_nil in E. destruct E. contradiction.
Qed.

(** A segment that is not the last enters the URL only stripped. *)
Lemma build_url_segment_congr (args1 args2 : list atom) (s s' : string) (kwargs : kwargs_t) :
  segments args2 <> [] ->
  strip slash s = strip slash s' ->
  _build_url (args1 ++ AStr s :: args2) kwargs = _build_url (args1 ++ AStr s' :: args2) kwargs.
Proof.
  intros Hne Hs. unfold _build_url.
  fold (segments (args1 ++ AStr s :: args2)). fold (segments (args1 ++ AStr s' :: args2)).
  rewrite !segments_app.
  change (segments (AStr s :: args2)) with (AStr s :: segments args2).
  change (segments (AStr s' :: args2)) with (AStr s' :: segments args2).
  change (AStr s :: segments args2) with ([AStr s] ++ segments args2)%list.
  change (AStr s' :: segments args2) with ([AStr s'] ++ segments args2)%list.
  rewrite !app_assoc, !(last_item_app _ _ Hne).
  rewrite !map_app. simpl map. rewrite Hs. reflexivity.
Qed.

(** X8: a segment that is followed by another may be given with or without
    slashes around it: [s], [/s], [s/] and [/s/] give the same result. *)
Theorem build_url_inner_slashes (args1 args2 : list atom) (s : string) (kwargs : kwargs_t) :
  segments args2 <> [] ->
  _build_url (args1 ++ AStr ("/" ++ s) :: args2) kwargs
  = _build_url (args1 ++ AStr s :: args2) kwargs /\
  _build_url (args1 ++ AStr (s ++ "/") :: args2) kwargs
  = _build_url (args1 ++ AStr s :: args2) kwargs /\
  _build_url (args1 ++ AStr ("/" ++ s ++ "/") :: args2) kwargs
  = _build_url (args1 ++ AStr s :: args2) kwargs.
Proof.
  intros Hne. repeat split; apply build_url_segment_congr; try exact Hne.
  - apply strip_cons.
  - apply strip_snoc.
  - change ("/" ++ s ++ "/") with (String slash (s ++ String slash "")).
    rewrite strip_cons. apply strip_snoc.
Qed.

Lemma build_url_inner_slashes_witness :
  _build_url [AStr "http://s"; AStr "/api/v1/"; AInt 3] []
  = _build_url [AStr "http://s"; AStr "api/v1"; AInt 3] [].
Proof.
  assert (H : segments [AInt 3] <> []) by discriminate.
  exact (proj2 (proj2 (build_url_inner_slashes [AStr "http://s"] [AInt 3] "api/v1" [] H))).
Defined.

(** *** What [quote] lets through *)

Lemma string_forall_append (p : ascii -> bool) (a b : string) :
  string_forall p (a ++ b) = string_forall p a && string_forall p b.
Proof.
  induction a as [|x a IH]; simpl; [reflexivity|].
  rewrite IH. now rewrite andb_assoc.
Qed.

Lemma string_forall_contains (p : ascii -> bool) (c : ascii) (s : string) :
  string_forall p s = true -> p c = false -> contains c s = false.
Proof.
  intros Hs Hc. induction s as [|a s IH]; [reflexivity|].
  simpl in *. apply andb_true_iff in Hs. destruct Hs as (Ha & Hs).
  rewrite (IH Hs), orb_false_r.
  destruct (Ascii.eqb_spec a c); [congruence | reflexivity].
Qed.

Lemma percent_byte_output (a : ascii) :
  string_forall quote_output (percent_byte a) = true.
Proof.
  destruct a as [[] [] [] [] [] [] [] []]; vm_compute; reflexivity.
Qed.

Lemma quote_output_chars (s : string) : string_forall quote_output (quote s) = true.
Proof.
  induction s as [|a s IH]; [reflexivity|].
  simpl. rewrite string_forall_append, IH, andb_true_r.
  destruct (quote_safe a) eqn:Ea.
  - simpl. unfold quote_output. now rewrite Ea.
  - apply percent_byte_output.
Qed.

(** X9: what [quote] returns holds only ASCII letters, digits, [_.-~/] and
    [%]; so an encoded value holds no [,], [&], [=], [?], [#] or space, and
    the value rendered for a list that is not empty splits at its commas
    into exactly the encoded elements, also when an element holds a comma. *)
Theorem quoted_values_keep_structure :
  (forall s, string_forall quote_output (quote s) = true) /\
  (forall s c, In c [","; "&"; "="; "?"; "#"; " "]%char -> contains c (quote s) = false) /\
  (forall l : list atom,
      l <> [] ->
      split comma (join "," (map (fun v => quote (py_str v)) l))
      = map (fun v => quote (py_str v)) l).
Proof.
  assert (Hc : forall s c, In c [","; "&"; "="; "?"; "#"; " "]%char ->
                           contains c (quote s) = false).
  { intros s c Hin. apply (string_forall_contains quote_output); [apply quote_output_chars|].
    simpl in Hin. repeat (destruct Hin as [<-|Hin]; [reflexivity|]). contradiction. }
  split; [exact quote_output_chars|]. split; [exact Hc|].
  intros l Hne. apply (split_join comma).
  - destruct l; [congruence | discriminate].
  - apply Forall_map. apply Forall_forall. intros v _. apply Hc. now left.
Qed.

Lemma quoted_values_keep_structure_witness :
  split comma (join "," (map (fun v => quote (py_str v)) [AStr "a,b"; AStr "c d"; AInt 3]))
  = ["a%2Cb"; "c%20d"; "3"].
Proof.
  rewrite (proj2 (proj2 quoted_values_keep_structure) [AStr "a,b"; AStr "c d"; AInt 3]).
  - reflexivity.
  - discriminate.
Defined.

(** *** A list value and its comma string *)

Lemma hex_digits_decode (a : ascii) :
  hex_value (hex_digit (N_of_ascii a / 16)) = Some (N_of_ascii a / 16)%N /\
  hex_value (hex_digit (N_of_ascii a mod 16)) = Some (N_of_ascii a mod 16)%N /\
  ascii_of_N (16 * (N_of_ascii a / 16) + N_of_ascii a mod 16) = a.
Proof.
  destruct a as [[] [] [] [] [] [] [] []]; vm_compute; repeat split.
Qed.

Lemma unquote_percent (h l : ascii) (x y : N) (rest : string) :
  hex_value h = Some x ->
  hex_value l = Some y ->
  unquote (String "%" (String h (String l rest)))
  = String (ascii_of_N (16 * x + y)) (unquote rest).
Proof.
  intros Hh Hl.
  change (unquote (String "%" (String h (String l rest))))
    with (match hex_value h, hex_value l with
          | Some x, Some y => String (ascii_of_N (16 * x + y)) (unquote rest)
          | _, _ => String "%"%char (unquote (String h (String l rest)))
          end).
  rewrite Hh, Hl. reflexivity.
Qed.

Lemma percent_byte_decodes (a : ascii) (rest : string) :
  unquote (percent_byte a ++ rest) = String a (unquote rest).
Proof.
  destruct (hex_digits_decode a) as (Hh & Hl & Ha).
  change (percent_byte a ++ rest)
    with (String "%" (String (hex_digit (N_of_ascii a / 16))
                             (String (hex_digit (N_of_ascii a mod 16)) rest))).
  rewrite (unquote_percent _ _ _ _ rest Hh Hl), Ha. reflexivity.
Qed.

Lemma quote_safe_not_percent (a : ascii) : quote_safe a = true -> Ascii.eqb a "%" = false.
Proof.
  destruct (Ascii.eqb_spec a "%"); [subst; vm_compute; discriminate | reflexivity].
Qed.

(** [quote] is a percent-encoding: [unquote] gives the string back. *)
Lemma unquote_quote (s : string) : unquote (quote s) = s.
Proof.
  induction s as [|a s IH]; [reflexivity|].
  simpl quote. destruct (quote_safe a) eqn:Ea.
  - simpl. rewrite (quote_safe_not_percent a Ea), IH. reflexivity.
  - rewrite percent_byte_decodes, IH. reflexivity.
Qed.

(** C9: a list query value whose elements hold no comma is rendered as the
    string of its elements joined by commas is. Both give the entry
    [key=p1,...,pn], where each [pi] is the percent-encoding of the [i]-th
    element alone: it holds only letters, digits, [_.-~/] and [%], and
    [unquote] gives the element back. The commas of the entry are the
    separators, left as they are: the entry splits at them into the encoded
    pieces. So the URL is the same for the list and for the string. *)
Theorem list_value_as_comma_string
        (args : list atom) (kw1 kw2 : kwargs_t) (k : string) (l : list atom) :
  k <> "tail_slash" ->
  Forall (fun v => contains comma (py_str v) = false) l ->
  let pieces := map (fun v => quote (py_str v)) l in
  let entry := k ++ "=" ++ join "," pieces in
  render_param k (QList l) = [entry] /\
  render_param k (QAtom (AStr (join "," (map py_str l)))) = [entry] /\
  Forall (fun piece => string_forall quote_output piece = true) pieces /\
  map unquote pieces = map py_str l /\
  (l <> [] -> split comma (join "," pieces) = pieces) /\
  _build_url args (kw1 ++ (k, QList l) :: kw2)
  = _build_url args (kw1 ++ (k, QAtom (AStr (join "," (map py_str l)))) :: kw2) /\
  (segments args <> [] ->
   last (segments args) ANone <> AStr "" ->
   let u := joined_path args
            ++ (if contains qmark (joined_path args) then "&" else "/?") ++ entry in
   _build_url args [(k, QList l)] = Ok u /\
   _build_url args [(k, QAtom (AStr (join "," (map py_str l))))] = Ok u).
Proof.
  intros Hk Hall pieces entry.
  assert (Hlist : render_param k (QList l) = [entry]) by reflexivity.
  assert (Hstr : render_param k (QAtom (AStr (join "," (map py_str l)))) = [entry])
    by (rewrite <- (render_list_as_string k l Hall); exact Hlist).
  split; [exact Hlist|]. split; [exact Hstr|]. split; [|split; [|split; [|split]]].
  - subst pieces. apply Forall_map, Forall_forall. intros v _. apply quote_output_chars.
  - subst pieces. rewrite map_map. apply map_ext. intros v. apply unquote_quote.
  - intros Hne. apply (split_join comma).
    + subst pieces. destruct l; [congruence | discriminate].
    + subst pieces. apply Forall_map, Forall_forall. intros v _.
      apply (string_forall_contains quote_output); [apply quote_output_chars | reflexivity].
  - apply build_url_param_congr; [exact Hk|]. now rewrite Hlist, Hstr.
  - intros Hne Hlast u.
    assert (Hs : py_str (last (segments args) ANone) <> "")
      by (intros E; apply py_str_empty in E; contradiction).
    destruct (last_char_ok _ Hs) as (c & Hc).
    assert (Hkey : String.eqb k "tail_slash" = false)
      by (destruct (String.eqb_spec k "tail_slash"); [contradiction | reflexivity]).
    assert (Hone : forall v, render_param k v = [entry] -> _build_url args [(k, v)] = Ok u).
    { intros v Hv. unfold _build_url. fold (segments args).
      rewrite (last_item_ok _ ANone Hne). simpl res_bind. rewrite Hc. simpl res_bind.
      fold (joined_path args). unfold kw_pop. simpl kw_get. rewrite Hkey.
      unfold render_params. simpl flat_map. rewrite Hv. reflexivity. }
    split; apply Hone; assumption.
Qed.

Lemma list_value_as_comma_string_witness :
  _build_url [AStr "http://s"; AStr "search"] [("classes", QList [AStr "a b"; AStr "c&d"])]
  = Ok "http://s/search/?classes=a%20b,c%26d" /\
  _build_url [AStr "http://s"; AStr "search"] [("classes", QAtom (AStr "a b,c&d"))]
  = Ok "http://s/search/?classes=a%20b,c%26d" /\
  _build_url [AStr "http://s"; AStr "search"] [("classes", QList [AStr "x"; AStr "y"])]
  = _build_url [AStr "http://s"; AStr "search"] [("classes", QAtom (AStr "x,y"))].
Proof.
  assert (Hk : "classes" <> "tail_slash") by discriminate.
  destruct (list_value_as_comma_string [AStr "http://s"; AStr "search"] [] [] "classes"
              [AStr "a b"; AStr "c&d"] Hk
              ltac:(repeat (constructor; [reflexivity|]); constructor))
    as (_ & _ & _ & _ & _ & _ & Hurl).
  destruct (Hurl ltac:(discriminate) ltac:(discriminate)) as (H1 & H2).
  split; [exact H1|]. split; [exact H2|].
  exact (proj1 (proj2 (proj2 (proj2 (proj2 (proj2
           (list_value_as_comma_string [AStr "http://s"; AStr "search"] [] [] "classes"
              [AStr "x"; AStr "y"] Hk
              ltac:(repeat (constructor; [reflexivity|]); constructor)))))))).
Defined.

(** *** The query string *)

Lemma kw_get_app_none (key : string) (kw1 kw2 : kwargs_t) :
  kw_get key (kw1 ++ kw2) = None -> kw_get key kw1 = None /\ kw_get key kw2 = None.
Proof.
  induction kw1 as [|[k v] kw1 IH]; simpl; [auto|].
  destruct (String.eqb k key); [discriminate | exact IH].
Qed.

Lemma kw_get_app_here (key : string) (v : qval) (kw1 kw2 : kwargs_t) :
  kw_get key kw1 = None -> kw_get key (kw1 ++ (key, v) :: kw2) = Some v.
Proof.
  induction kw1 as [|[k1 v1] kw1 IH]; simpl.
  - now rewrite String.eqb_refl.
  - destruct (String.eqb k1 key); [discriminate | exact IH].
Qed.

Lemma kw_del_absent (key : string) (kw : kwargs_t) :
  kw_get key kw = None -> kw_del key kw = kw.
Proof.
  induction kw as [|[k v] kw IH]; simpl; [reflexivity|].
  destruct (String.eqb k key); [discriminate|].
  intros H. simpl. now rewrite (IH H).
Qed.

Lemma kw_del_here (key : string) (v : qval) (kw1 kw2 : kwargs_t) :
  kw_get key (kw1 ++ kw2) = None ->
  kw_del key (kw1 ++ (key, v) :: kw2) = (kw1 ++ kw2)%list.
Proof.
  intros H. rewrite <- (kw_del_absent key (kw1 ++ kw2) H).
  unfold kw_del. rewrite !filter_app. simpl. now rewrite String.eqb_refl.
Qed.

(** X10: when a query parameter is rendered, the result is the joined path,
    then [&] if the path holds a [?] and [/?] otherwise, then the rendered
    parameters joined by [&]; [tail_slash] is not rendered and changes
    nothing, so [tail_slash=False] does not take away the [/] before the
    [?]. *)
Theorem build_url_query (args : list atom) (kw1 kw2 : kwargs_t) (flag : qval) :
  segments args <> [] ->
  last (segments args) ANone <> AStr "" ->
  kw_get "tail_slash" (kw1 ++ kw2) = None ->
  render_params (kw1 ++ kw2) <> [] ->
  let u := joined_path args
           ++ (if contains qmark (joined_path args) then "&" else "/?")
           ++ join "&" (render_params (kw1 ++ kw2)) in
  _build_url args (kw1 ++ kw2) = Ok u /\
  _build_url args (kw1 ++ ("tail_slash", flag) :: kw2) = Ok u.
Proof.
  intros Hne Hlast Habs Hpar u.
  assert (Hs : py_str (last (segments args) ANone) <> "")
    by (intros E; apply py_str_empty in E; contradiction).
  destruct (last_char_ok _ Hs) as (c & Hc).
  destruct (kw_get_app_none _ _ _ Habs) as (H1 & _).
  unfold _build_url. fold (segments args).
  rewrite (last_item_ok _ ANone Hne). simpl. rewrite Hc. simpl.
  fold (joined_path args). unfold kw_pop.
  rewrite Habs, (kw_get_app_here _ flag _ kw2 H1), (kw_del_here _ flag _ _ Habs).
  destruct (render_params (kw1 ++ kw2)) eqn:E; [congruence|].
  split; reflexivity.
Qed.

Lemma build_url_query_witness :
  _build_url [AStr "http://s"; AStr "search"]
             [("tail_slash", QAtom (ABool false)); ("limit", QAtom (AInt 5))]
  = Ok "http://s/search/?limit=5".
Proof.
  refine (proj2 (build_url_query [AStr "http://s"; AStr "search"] []
                   [("limit", QAtom (AInt 5))] (QAtom (ABool false)) _ _ _ _)).
  - discriminate.
  - discriminate.
  - reflexivity.
  - discriminate.
Defined.

(* ------------------------------------------------------------------ *)
(** ** More on the session *)

Section SessionMore.

Variable network : list Request -> Request -> net_result.
Variable backend_login : atom.

Lemma post_without_token (self : BaseAPI) (u : string) (body : payload) (w : World) :
  token self = JNull ->
  post network self u body w = (Raise (Exception (JStr "Not authenticated")), w).
Proof.
  intros H. unfold post, bind, lift_res, _auth_header, _is_authenticated.
  rewrite H. reflexivity.
Qed.

Lemma get_without_token (self : BaseAPI) (u : string) (w : World) :
  token self = JNull ->
  get network self u w = (Raise (Exception (JStr "Not authenticated")), w).
Proof.
  intros H. unfold get, bind, lift_res, _auth_header, _is_authenticated.
  rewrite H. reflexivity.
Qed.

Lemma get_with_token (self : BaseAPI) (u : string) (w : World) :
  token self <> JNull ->
  get network self u w
  = requests_send network (mkRequest GET u (Authorization (token self)) NoPayload) w.
Proof.
  intros H. unfold get, bind, lift_res, _auth_header, _is_authenticated.
  destruct (token self); try reflexivity. congruence.
Qed.

Lemma dict_get_find (k : string) (d : list (string * json)) :
  dict_get k d = match dict_find k d with Some v => v | None => JNull end.
Proof.
  induction d as [|[k' v] d IH]; simpl; [reflexivity|].
  destruct (String.eqb k' k); [reflexivity | exact IH].
Qed.

(** The request of the login. *)
Let login_request (u email password : string) : Request :=
  mkRequest POST u NoHeaders (Form [("password", password); ("email", email)]).

(** X11: a client made while the server cannot be reached. The constructor
    raises nothing and has tried one request; every later [post] and [get]
    on the client raises [Exception('Not authenticated')] and sends
    nothing. *)
Theorem client_of_unreachable_server (srv : atom) (email password u : string) (w : World) :
  url (mkAPI srv JNull) backend_login [] [] = Ok u ->
  network (sent w) (login_request u email password) = Refused ->
  exists self w1,
    BaseAPI_init network backend_login srv email password w = (Ok self, w1) /\
    sent w1 = (sent w ++ [login_request u email password])%list /\
    forall u' body w2,
      post network self u' body w2 = (Raise (Exception (JStr "Not authenticated")), w2) /\
      get network self u' w2 = (Raise (Exception (JStr "Not authenticated")), w2).
Proof.
  intros Hu Hnet. unfold BaseAPI_init, _login. rewrite Hu.
  unfold requests_send. fold (login_request u email password). rewrite Hnet. simpl.
  eexists. eexists. split; [reflexivity|]. split; [reflexivity|].
  intros u' body w2. split.
  - now apply post_without_token.
  - now apply get_without_token.
Qed.

(** X12: a login answered with status 200 whose body does not give a key.
    When the body is an object without the field [key], or with [key] null,
    nothing is raised and the client has no token, so that its calls raise
    [Exception('Not authenticated')]; when the body is JSON but not an
    object, [AttributeError] is raised; when it is not JSON, the error of
    [resp.json()]. *)
Theorem login_ok_without_key (srv : atom) (email password u : string) (w : World) (r : Response) :
  url (mkAPI srv JNull) backend_login [] [] = Ok u ->
  network (sent w) (login_request u email password) = Answered r ->
  status_code r = HTTP_OK ->
  let w1 := mkWorld (sent w ++ [login_request u email password]) (stdout w) (reads w) in
  (forall d,
      resp_body r = Some (JObj d) ->
      dict_find "key" d = None \/ dict_find "key" d = Some JNull ->
      BaseAPI_init network backend_login srv email password w = (Ok (mkAPI srv JNull), w1) /\
      forall u' body w2,
        post network (mkAPI srv JNull) u' body w2
        = (Raise (Exception (JStr "Not authenticated")), w2)) /\
  (forall j,
      resp_body r = Some j ->
      (forall d, j <> JObj d) ->
      BaseAPI_init network backend_login srv email password w = (Raise AttributeError, w1)) /\
  (resp_body r = None ->
   BaseAPI_init network backend_login srv email password w = (Raise JSONDecodeError, w1)).
Proof.
  intros Hu Hnet Hst w1. unfold BaseAPI_init, _login. rewrite Hu.
  unfold requests_send. fold (login_request u email password). rewrite Hnet.
  apply Z.eqb_eq in Hst. rewrite Hst. simpl. unfold resp_json. fold w1.
  split; [|split].
  - intros d Hbody Hkey. rewrite Hbody. simpl. rewrite dict_get_find.
    split; [destruct Hkey as [-> | ->]; reflexivity|].
    intros u' body w2. now apply post_without_token.
  - intros j Hbody Hj. rewrite Hbody. simpl.
    destruct j; try reflexivity. exfalso. exact (Hj d eq_refl).
  - intros Hbody. rewrite Hbody. reflexivity.
Qed.

(** X13: the token of a successful login is the one later requests carry.
    When the login is answered with status 200 and a body whose [key] is
    [k], not null, the client is made, the login request bore no
    [Authorization] header, and a [post] of the client hands to [requests]
    a request whose header is made from [k]. *)
Theorem login_token_in_requests
        (srv : atom) (email password u : string) (w : World) (r : Response)
        (d : list (string * json)) (k : json) :
  url (mkAPI srv JNull) backend_login [] [] = Ok u ->
  network (sent w) (login_request u email password) = Answered r ->
  status_code r = HTTP_OK ->
  resp_body r = Some (JObj d) ->
  dict_find "key" d = Some k ->
  k <> JNull ->
  exists self w1,
    BaseAPI_init network backend_login srv email password w = (Ok self, w1) /\
    sent w1 = (sent w ++ [login_request u email password])%list /\
    forall u' body w2,
      post network self u' body w2
      = requests_send network (mkRequest POST u' (Authorization k) body) w2 /\
      get network self u' w2
      = requests_send network (mkRequest GET u' (Authorization k) NoPayload) w2.
Proof.
  intros Hu Hnet Hst Hbody Hkey Hk. unfold BaseAPI_init, _login. rewrite Hu.
  unfold requests_send at 1. fold (login_request u email password). rewrite Hnet.
  apply Z.eqb_eq in Hst. rewrite Hst. simpl. unfold resp_json. rewrite Hbody. simpl.
  rewrite dict_get_find, Hkey.
  eexists. eexists. split; [reflexivity|]. split; [reflexivity|].
  intros u' body w2. split.
  - now rewrite authenticated_post.
  - now rewrite get_with_token.
Qed.

End SessionMore.

Lemma client_of_unreachable_server_witness :
  exists self w1,
    BaseAPI_init net_down sample_login (AStr "http://localhost:8000") "me@x.org" "pw" world0
    = (Ok self, w1) /\
    List.length (sent w1) = 1%nat /\
    post net_down self "http://localhost:8000/api/dataset" NoPayload w1
    = (Raise (Exception (JStr "Not authenticated")), w1).
Proof.
  destruct (client_of_unreachable_server net_down sample_login (AStr "http://localhost:8000")
              "me@x.org" "pw" "http://localhost:8000/api/rest-auth/login/" world0
              eq_refl eq_refl) as (self & w1 & H1 & H2 & H3).
  exists self, w1. split; [exact H1|]. split.
  - rewrite H2. reflexivity.
  - exact (proj1 (H3 "http://localhost:8000/api/dataset" NoPayload w1)).
Defined.

Lemma login_ok_without_key_witness :
  BaseAPI_init (net_const resp_no_key) sample_login (AStr "http://localhost:8000")
               "me@x.org" "pw" world0
  = (Ok anonymous_api,
     mkWorld [mkRequest POST "http://localhost:8000/api/rest-auth/login/" NoHeaders
                        (Form [("password", "pw"); ("email", "me@x.org")])] [] 0).
Proof.
  refine (proj1 (proj1 (login_ok_without_key (net_const resp_no_key) sample_login
                          (AStr "http://localhost:8000") "me@x.org" "pw"
                          "http://localhost:8000/api/rest-auth/login/" world0 resp_no_key
                          eq_refl eq_refl eq_refl)
                       [("id", JNum 4)] eq_refl _)).
  left. reflexivity.
Defined.

Lemma login_token_in_requests_witness :
  exists self w1,
    BaseAPI_init (net_const resp_key) sample_login (AStr "http://localhost:8000")
                 "me@x.org" "pw" world0 = (Ok self, w1) /\
    post (net_const resp_key) self "http://localhost:8000/api/dataset" NoPayload w1
    = requests_send (net_const resp_key)
        (mkRequest POST "http://localhost:8000/api/dataset" (Authorization (JStr "abc"))
                   NoPayload) w1.
Proof.
  destruct (login_token_in_requests (net_const resp_key) sample_login
              (AStr "http://localhost:8000") "me@x.org" "pw"
              "http://localhost:8000/api/rest-auth/login/" world0 resp_key
              [("key", JStr "abc")] (JStr "abc") eq_refl eq_refl eq_refl eq_refl eq_refl
              ltac:(discriminate)) as (self & w1 & H1 & _ & H3).
  exists self, w1. split; [exact H1|].
  exact (proj1 (H3 "http://localhost:8000/api/dataset" NoPayload w1)).
Defined.

(* ------------------------------------------------------------------ *)
(** ** More on the tracker and the pipeline *)

Section PipelineMore.

Variable network : list Request -> Request -> net_result.
Variable clock : nat -> Z.
Variable fs : string -> option Z.
Variable backend_dataset_upload : atom -> atom.
Variable resolve : list string -> bool -> res (list string).
Variable self : BaseAPI.
Variables dataset_id annotation_task folder_id annotation_set_id : atom.
Variable class_encoding : option (list (string * atom)).

Let upload (bulk : list string) : M (World * UploadStatus) json :=
  upload_files network clock fs backend_dataset_upload self dataset_id bulk
               annotation_task folder_id annotation_set_id class_encoding.

Let upload_url : res string :=
  url self (backend_dataset_upload dataset_id) []
      [("folder_id", QAtom folder_id); ("annotation_set_id", QAtom annotation_set_id)].

Let request_of (u : string) (bulk : list string) : Request :=
  mkRequest POST u (Authorization (token self))
            (Multipart bulk (upload_data annotation_task class_encoding)).

(** X14: [progress] changes nothing of the tracker but [reported_progress],
    sends nothing, reads the clock at most once and prints at most one
    line; the line it prints is for a percentage above the one reported
    before, and that percentage is the one it records. *)
Theorem progress_effects (ws : World * UploadStatus) :
  let st := snd ws in
  let st' := snd (snd (progress clock ws)) in
  let w := fst ws in
  let w' := fst (snd (progress clock ws)) in
  total_count st' = total_count st /\
  current_count st' = current_count st /\
  start st' = start st /\
  sent w' = sent w /\
  (reads w' <= S (reads w))%nat /\
  (stdout w' = stdout w \/
   exists rep,
     stdout w' = (stdout w ++ [Progress rep])%list /\
     reported_progress st < r_percentage rep /\
     reported_progress st' = r_percentage rep /\
     r_current rep = current_count st /\
     r_total rep = total_count st).
Proof.
  destruct ws as [w st]. unfold progress, bind, lift_res. simpl.
  destruct (percentage st) as [p|e]; [|simpl; repeat split; auto].
  destruct (p >? reported_progress st) eqn:Egt.
  - unfold on_fst, now. simpl.
    destruct (make_report p (clock (reads w)) st) as [rep|e] eqn:Er;
      simpl; repeat split; auto.
    right. exists rep. unfold make_report in Er.
    destruct (float_div _ _); simpl in Er; [|discriminate].
    destruct (float_div _ _); simpl in Er; [|discriminate].
    destruct (timedelta_seconds _); simpl in Er; [|discriminate].
    inversion Er; subst. simpl. repeat split; auto.
    rewrite Z.gtb_ltb in Egt. now apply Z.ltb_lt.
  - simpl. repeat split; auto.
Qed.

(** The ways a batch can go: it fails before anything is sent, or the
    connection fails, or the server answers. *)
Lemma upload_files_cases (bulk : list string) (w : World) (st : UploadStatus) :
  (exists e, upload bulk (w, st) = (Raise e, (w, st)) /\
             (all_exist fs bulk -> forall u, upload_url = Ok u -> token self = JNull)) \/
  (exists u,
      upload_url = Ok u /\ all_exist fs bulk /\ token self <> JNull /\
      ((network (sent w) (request_of u bulk) = Refused /\
        upload bulk (w, st)
        = (Raise ConnectionError,
           (mkWorld (sent w ++ [request_of u bulk]) (stdout w) (reads w), st))) \/
       (exists r, network (sent w) (request_of u bulk) = Answered r))).
Proof.
  destruct (map_res (open_rb fs) bulk) as [files|e] eqn:Eopen.
  2:{ left. exists e. split.
      - unfold upload, upload_files, bind, lift_res. rewrite Eopen. reflexivity.
      - intros Hex. rewrite (open_all fs _ Hex) in Eopen. discriminate. }
  destruct (open_all_inv fs _ _ Eopen) as (-> & Hex).
  destruct upload_url as [u|e] eqn:Eu.
  2:{ left. exists e. split.
      - unfold upload, upload_files, bind, lift_res. rewrite Eopen.
        fold upload_url. rewrite Eu. reflexivity.
      - intros _ u Hu. discriminate. }
  destruct (json_is_none (token self)) eqn:Etok.
  { left. eexists. split.
    - unfold upload, upload_files, bind, lift_res. rewrite Eopen.
      fold upload_url. rewrite Eu.
      unfold on_fst, post, bind, lift_res, _auth_header, _is_authenticated.
      rewrite Etok. reflexivity.
    - intros _ _ _. destruct (token self); try discriminate. reflexivity. }
  assert (Htok : token self <> JNull) by (intros E; rewrite E in Etok; discriminate).
  right. exists u. repeat (split; [assumption || reflexivity|]).
  destruct (network (sent w) (request_of u bulk)) as [|r] eqn:Enet.
  - left. split; [reflexivity|].
    unfold upload, upload_files, bind, lift_res. rewrite Eopen.
    fold upload_url. rewrite Eu.
    unfold on_fst. rewrite (authenticated_post _ _ _ _ _ Htok).
    unfold requests_send. simpl. fold (request_of u bulk). rewrite Enet. reflexivity.
  - right. exists r. reflexivity.
Qed.

(** A batch leaves [total_count] and [start] alone and adds its number of
    files to [current_count], or nothing. *)
Lemma upload_files_counts (bulk : list string) (ws : World * UploadStatus) :
  let st' := snd (snd (upload bulk ws)) in
  total_count st' = total_count (snd ws) /\
  start st' = start (snd ws) /\
  (current_count st' = current_count (snd ws) \/
   current_count st' = current_count (snd ws) + Z.of_nat (List.length bulk)).
Proof.
  destruct ws as [w st].
  destruct (upload_files_cases bulk w st)
    as [(e & -> & _)|(u & Hu & Hex & Htok & [(_ & ->)|(r & Hnet)])];
    [simpl; auto | simpl; auto |].
  unfold upload.
  rewrite (upload_files_answered network clock fs backend_dataset_upload self dataset_id
             annotation_task folder_id annotation_set_id class_encoding bulk u r w st
             Htok Hex Hu Hnet).
  cbv zeta.
  match goal with
  | |- context [progress clock ?x] =>
      pose proof (progress_keeps_counts clock x) as (H1 & H2 & H3)
  end.
  destruct (progress clock _) as [[[]|e] ws1]; simpl in *;
    rewrite H1, H2, H3; auto.
Qed.

(** A batch whose request is answered is counted, whatever the status. *)
Lemma upload_files_counted (bulk : list string) (u : string) (ws : World * UploadStatus) :
  token self <> JNull ->
  all_exist fs bulk ->
  upload_url = Ok u ->
  network (sent (fst ws)) (request_of u bulk) <> Refused ->
  current_count (snd (snd (upload bulk ws)))
  = current_count (snd ws) + Z.of_nat (List.length bulk).
Proof.
  intros Htok Hex Hu Hnet. destruct ws as [w st]. simpl in Hnet.
  destruct (network (sent w) (request_of u bulk)) as [|r] eqn:Enet; [congruence|].
  unfold upload.
  rewrite (upload_files_answered network clock fs backend_dataset_upload self dataset_id
             annotation_task folder_id annotation_set_id class_encoding bulk u r w st
             Htok Hex Hu Enet).
  cbv zeta.
  match goal with
  | |- context [progress clock ?x] =>
      pose proof (progress_keeps_counts clock x) as (_ & H2 & _)
  end.
  destruct (progress clock _) as [[[]|e] ws1]; simpl in *; rewrite H2; reflexivity.
Qed.

Lemma length_concat_cons {A} (g : list A) (gs : list (list A)) :
  Z.of_nat (List.length (List.concat (g :: gs)))
  = Z.of_nat (List.length g) + Z.of_nat (List.length (List.concat gs)).
Proof. simpl. rewrite length_app. lia. Qed.

Lemma submit_counts (groups : list (list string)) :
  forall ws,
    let st' := snd (snd (submit_all upload groups ws)) in
    total_count st' = total_count (snd ws) /\
    start st' = start (snd ws) /\
    current_count (snd ws) <= current_count st'
    <= current_count (snd ws) + Z.of_nat (List.length (List.concat groups)).
Proof.
  induction groups as [|g groups IH]; intros ws.
  - simpl. lia.
  - cbv zeta. rewrite length_concat_cons. simpl submit_all.
    pose proof (upload_files_counts g ws) as (H1 & H2 & H3).
    destruct (upload g ws) as [r ws1]. specialize (IH ws1).
    destruct (submit_all upload groups ws1) as [rs ws2].
    simpl in *. destruct IH as (I1 & I2 & I3).
    rewrite I1, I2, H1, H2. repeat split; lia.
Qed.

Lemma submit_counted (u : string) (groups : list (list string)) :
  token self <> JNull ->
  upload_url = Ok u ->
  (forall earlier rq, network earlier rq <> Refused) ->
  Forall (all_exist fs) groups ->
  forall ws,
    current_count (snd (snd (submit_all upload groups ws)))
    = current_count (snd ws) + Z.of_nat (List.length (List.concat groups)).
Proof.
  intros Htok Hu Hnet Hex. induction Hex as [|g groups Hg _ IH]; intros ws.
  - simpl. lia.
  - rewrite length_concat_cons. simpl submit_all.
    pose proof (upload_files_counted g u ws Htok Hg Hu (Hnet _ _)) as Hc.
    destruct (upload g ws) as [r ws1]. specialize (IH ws1).
    destruct (submit_all upload groups ws1) as [rs ws2].
    simpl in *. rewrite IH, Hc. lia.
Qed.

Lemma executor_counts (groups : list (list string)) :
  forall ws,
    let st' := snd (snd (executor_map upload groups ws)) in
    total_count st' = total_count (snd ws) /\
    start st' = start (snd ws) /\
    current_count (snd ws) <= current_count st'
    <= current_count (snd ws) + Z.of_nat (List.length (List.concat groups)).
Proof.
  intros ws. cbv zeta. rewrite executor_map_state. apply submit_counts.
Qed.

Lemma executor_counted (u : string) (groups : list (list string)) :
  token self <> JNull ->
  upload_url = Ok u ->
  (forall earlier rq, network earlier rq <> Refused) ->
  Forall (all_exist fs) groups ->
  forall ws,
    current_count (snd (snd (executor_map upload groups ws)))
    = current_count (snd ws) + Z.of_nat (List.length (List.concat groups)).
Proof.
  intros Htok Hu Hnet Hex ws. rewrite executor_map_state.
  now apply (submit_counted u).
Qed.

(** X15: the tracker over a bulk upload. It starts at zero of
    [len(files)]; the batches leave [total_count] as it is and
    [current_count] never passes it; when the client has a token and no
    connection fails, every file is counted at the end, whatever the
    statuses of the answers. *)
Theorem bulk_tracker_counts (files : list string) (groups : list (list string)) (w : World) :
  split_files_by_size fs files = Ok groups ->
  let final := snd (snd (executor_map upload groups (bulk_start clock files w))) in
  total_count final = Z.of_nat (List.length files) /\
  0 <= current_count final <= total_count final /\
  (forall u,
      token self <> JNull ->
      upload_url = Ok u ->
      (forall earlier rq, network earlier rq <> Refused) ->
      current_count final = total_count final).
Proof.
  intros Hsplit final.
  pose proof (split_loop_all_exist fs _ _ _ _ _ Hsplit) as Hex.
  destruct (split_loop_batches fs files [] [] 0 Hex eq_refl) as (gs & Hrun & Hcat & _).
  { intros p q E. destruct p; [simpl; unfold bulk_size; lia | discriminate]. }
  unfold split_files_by_size in Hsplit. rewrite Hrun in Hsplit.
  inversion Hsplit; subst gs. simpl in Hcat.
  pose proof (executor_counts groups (bulk_start clock files w)) as (H1 & _ & H3).
  fold final in H1, H3. simpl in H1, H3. rewrite Hcat in H3.
  split; [exact H1|]. split; [rewrite H1; lia|].
  intros u Htok Hu Hnet. subst final.
  rewrite (executor_counted u groups Htok Hu Hnet), H1.
  - simpl. rewrite Hcat. lia.
  - apply all_exist_concat. rewrite Hcat. exact Hex.
Qed.

End PipelineMore.

Lemma bulk_tracker_counts_witness :
  let final := snd (snd (executor_map
                           (fun bulk => upload_files net_first_fails sample_clock sample_fs
                                                     sample_upload sample_api (AInt 3) bulk
                                                     ANone ANone ANone None)
                           [["f1"; "f2"; "f3"; "f4"]; ["f5"]]
                           (bulk_start sample_clock five_files world0))) in
  total_count final = 5 /\ current_count final = total_count final.
Proof.
  destruct (bulk_tracker_counts net_first_fails sample_clock sample_fs sample_upload sample_api
              (AInt 3) ANone ANone ANone None five_files [["f1"; "f2"; "f3"; "f4"]; ["f5"]]
              world0 eq_refl) as (H1 & _ & H3).
  split; [exact H1|].
  apply (H3 "http://localhost:8000/api/dataset/3/upload").
  - discriminate.
  - reflexivity.
  - intros earlier rq. unfold net_first_fails. destruct earlier; discriminate.
Defined.

(* ------------------------------------------------------------------ *)
(** ** Bulk uploads that send nothing, or reach nobody *)

Section PipelineEdges.

Variable network : list Request -> Request -> net_result.
Variable clock : nat -> Z.
Variable fs : string -> option Z.
Variable backend_dataset_upload : atom -> atom.
Variable resolve : list string -> bool -> res (list string).
Variable self : BaseAPI.
Variables dataset_id annotation_task folder_id annotation_set_id : atom.
Variable class_encoding : option (list (string * atom)).

Let upload (bulk : list string) : M (World * UploadStatus) json :=
  upload_files network clock fs backend_dataset_upload self dataset_id bulk
               annotation_task folder_id annotation_set_id class_encoding.

Let upload_url : res string :=
  url self (backend_dataset_upload dataset_id) []
      [("folder_id", QAtom folder_id); ("annotation_set_id", QAtom annotation_set_id)].

Let request_of (u : string) (bulk : list string) : Request :=
  mkRequest POST u (Authorization (token self))
            (Multipart bulk (upload_data annotation_task class_encoding)).

Let bulk_upload (files_to_upload : list string) : M World (list (res json)) :=
  bulk_upload_files network clock fs backend_dataset_upload resolve self dataset_id
                    files_to_upload annotation_task folder_id annotation_set_id class_encoding.

Lemma upload_unauthenticated (bulk : list string) (u : string) (ws : World * UploadStatus) :
  token self = JNull ->
  all_exist fs bulk ->
  upload_url = Ok u ->
  upload bulk ws = (Raise (Exception (JStr "Not authenticated")), ws).
Proof.
  intros Htok Hex Hu. destruct ws as [w st].
  unfold upload, upload_files, bind, lift_res. rewrite (open_all fs _ Hex).
  fold upload_url. rewrite Hu.
  unfold on_fst. simpl fst. rewrite (post_without_token network _ _ _ _ Htok). reflexivity.
Qed.

Lemma upload_refused (bulk : list string) (u : string) (w : World) (st : UploadStatus) :
  token self <> JNull ->
  all_exist fs bulk ->
  upload_url = Ok u ->
  network (sent w) (request_of u bulk) = Refused ->
  upload bulk (w, st)
  = (Raise ConnectionError, (mkWorld (sent w ++ [request_of u bulk]) (stdout w) (reads w), st)).
Proof.
  intros Htok Hex Hu Hnet.
  unfold upload, upload_files, bind, lift_res. rewrite (open_all fs _ Hex).
  fold upload_url. rewrite Hu.
  unfold on_fst. rewrite (authenticated_post _ _ _ _ _ Htok).
  unfold requests_send. simpl. fold (request_of u bulk). rewrite Hnet. reflexivity.
Qed.

Lemma submit_unauthenticated (u : string) (groups : list (list string))
      (ws : World * UploadStatus) :
  token self = JNull ->
  Forall (all_exist fs) groups ->
  upload_url = Ok u ->
  submit_all upload groups ws
  = (map (fun _ => Raise (Exception (JStr "Not authenticated"))) groups, ws).
Proof.
  intros Htok Hex Hu. induction Hex as [|g groups Hg _ IH]; [reflexivity|].
  simpl. rewrite (upload_unauthenticated g u ws Htok Hg Hu), IH. reflexivity.
Qed.

(** Reading tasks that all raised gives the exception of the first. *)
Lemma result_iterator_raises {A B} (e : exn) (l : list A) :
  result_iterator (map (fun _ => @Raise B e) l)
  = match l with [] => [] | _ :: _ => [Raise e] end.
Proof. destruct l; reflexivity. Qed.

Lemma submit_refused (u : string) (groups : list (list string)) :
  token self <> JNull ->
  Forall (all_exist fs) groups ->
  upload_url = Ok u ->
  (forall earlier rq, network earlier rq = Refused) ->
  forall w st,
    submit_all upload groups (w, st)
    = (map (fun _ => Raise ConnectionError) groups,
       (mkWorld (sent w ++ map (request_of u) groups) (stdout w) (reads w), st)).
Proof.
  intros Htok Hex Hu Hnet. induction Hex as [|g groups Hg _ IH]; intros w st.
  - simpl. rewrite app_nil_r. destruct w; reflexivity.
  - simpl. rewrite (upload_refused g u w st Htok Hg Hu (Hnet _ _)), IH. simpl.
    rewrite <- app_assoc. reflexivity.
Qed.

(** X16: a bulk upload on a client without a token raises nothing by
    itself and has sent and printed nothing; what it returns raises
    [Exception('Not authenticated')], the exception of the first batch, when
    it is read, and gives nothing more (and nothing at all when there is no
    batch). *)
Theorem bulk_upload_unauthenticated
        (files_to_upload files : list string) (groups : list (list string))
        (u : string) (w : World) :
  token self = JNull ->
  resolve files_to_upload (negb (is_none annotation_task)) = Ok files ->
  split_files_by_size fs files = Ok groups ->
  upload_url = Ok u ->
  bulk_upload files_to_upload w
  = (Ok (match groups with
         | [] => []
         | _ :: _ => [Raise (Exception (JStr "Not authenticated"))]
         end),
     mkWorld (sent w) (stdout w) (S (reads w))).
Proof.
  intros Htok Hres Hsplit Hu. unfold bulk_upload.
  rewrite (bulk_upload_files_runs network clock fs backend_dataset_upload resolve self
             dataset_id annotation_task folder_id annotation_set_id class_encoding
             _ _ _ _ Hres Hsplit).
  cbv zeta. fold upload. unfold executor_map.
  rewrite (submit_unauthenticated u groups _ Htok (split_groups_exist fs _ _ Hsplit) Hu).
  rewrite result_iterator_raises. reflexivity.
Qed.

(** X17: when a resolved file does not exist, [bulk_upload_files] raises
    the error of [os.path.getsize] for the first such file and has done
    nothing: no request, no line, no reading of the clock, with or without a
    token. *)
Theorem bulk_upload_missing_file
        (files_to_upload before after : list string) (p : string) (w : World) :
  resolve files_to_upload (negb (is_none annotation_task)) = Ok (before ++ p :: after)%list ->
  all_exist fs before ->
  fs p = None ->
  bulk_upload files_to_upload w = (Raise (FileNotFoundError p), w).
Proof.
  intros Hres Hex Hp. unfold bulk_upload, bulk_upload_files. rewrite Hres. simpl.
  unfold split_files_by_size. rewrite (split_loop_missing fs before after p _ _ _ Hex Hp).
  reflexivity.
Qed.

(** X18: when no connection can be made, [bulk_upload_files] still raises
    nothing by itself and tries the request of every batch in turn; nothing
    is printed and no file is counted by the tracker; what it returns
    raises [ConnectionError], the exception of the first batch, when it is
    read, and gives nothing more. *)
Theorem bulk_upload_refused
        (files_to_upload files : list string) (groups : list (list string))
        (u : string) (w : World) :
  token self <> JNull ->
  resolve files_to_upload (negb (is_none annotation_task)) = Ok files ->
  split_files_by_size fs files = Ok groups ->
  upload_url = Ok u ->
  (forall earlier rq, network earlier rq = Refused) ->
  bulk_upload files_to_upload w
  = (Ok (match groups with [] => [] | _ :: _ => [Raise ConnectionError] end),
     mkWorld (sent w ++ map (request_of u) groups) (stdout w) (S (reads w))) /\
  current_count (snd (snd (executor_map upload groups (bulk_start clock files w)))) = 0.
Proof.
  intros Htok Hres Hsplit Hu Hnet. unfold bulk_upload.
  rewrite (bulk_upload_files_runs network clock fs backend_dataset_upload resolve self
             dataset_id annotation_task folder_id annotation_set_id class_encoding
             _ _ _ _ Hres Hsplit).
  cbv zeta. fold upload. unfold bulk_start, executor_map.
  rewrite (submit_refused u groups Htok (split_groups_exist fs _ _ Hsplit) Hu Hnet).
  rewrite result_iterator_raises. split; reflexivity.
Qed.

(** X19: a tracker for no files cannot report: with [total_count] zero,
    [progress] raises [ZeroDivisionError] and leaves the tracker and the
    world as they were. A bulk upload of no files makes such a tracker and
    never calls [progress]: it returns the empty list and sends nothing. *)
Theorem nothing_to_upload (files_to_upload : list string) (w : World) :
  (forall st w', total_count st = 0 ->
                 progress clock (w', st) = (Raise ZeroDivisionError, (w', st))) /\
  (resolve files_to_upload (negb (is_none annotation_task)) = Ok [] ->
   bulk_upload files_to_upload w = (Ok [], mkWorld (sent w) (stdout w) (S (reads w)))).
Proof.
  split.
  - intros st w' Htot. unfold progress, bind, lift_res, percentage, int_true_div. simpl.
    rewrite Htot. reflexivity.
  - intros Hres. unfold bulk_upload, bulk_upload_files. rewrite Hres. reflexivity.
Qed.

End PipelineEdges.

Lemma bulk_upload_unauthenticated_witness :
  bulk_upload_files net_first_fails sample_clock sample_fs sample_upload sample_resolve
                    anonymous_api (AInt 3) five_files ANone ANone ANone None world0
  = (Ok [Raise (Exception (JStr "Not authenticated"))], mkWorld [] [] 1).
Proof.
  apply (bulk_upload_unauthenticated net_first_fails sample_clock sample_fs sample_upload
           sample_resolve anonymous_api (AInt 3) ANone ANone ANone None five_files five_files
           [["f1"; "f2"; "f3"; "f4"]; ["f5"]] "http://localhost:8000/api/dataset/3/upload"
           world0); reflexivity.
Defined.

Lemma bulk_upload_missing_file_witness :
  bulk_upload_files net_first_fails sample_clock sample_fs sample_upload sample_resolve
                    sample_api (AInt 3) ["f1"; "nowhere"; "f2"] ANone ANone ANone None world0
  = (Raise (FileNotFoundError "nowhere"), world0).
Proof.
  apply (bulk_upload_missing_file net_first_fails sample_clock sample_fs sample_upload
           sample_resolve sample_api (AInt 3) ANone ANone ANone None
           ["f1"; "nowhere"; "f2"] ["f1"] ["f2"] "nowhere" world0).
  - reflexivity.
  - repeat (constructor; [vm_compute; discriminate|]). constructor.
  - reflexivity.
Defined.

Lemma bulk_upload_refused_witness :
  bulk_upload_files net_down sample_clock sample_fs sample_upload sample_resolve
                    sample_api (AInt 3) five_files ANone ANone ANone None world0
  = (Ok [Raise ConnectionError],
     mkWorld [mkRequest POST "http://localhost:8000/api/dataset/3/upload"
                        (Authorization (JStr "abc")) (Multipart ["f1"; "f2"; "f3"; "f4"] []);
              mkRequest POST "http://localhost:8000/api/dataset/3/upload"
                        (Authorization (JStr "abc")) (Multipart ["f5"] [])] [] 1).
Proof.
  etransitivity.
  - exact (proj1 (bulk_upload_refused net_down sample_clock sample_fs sample_upload
                  sample_resolve sample_api (AInt 3) ANone ANone ANone None five_files
                  five_files [["f1"; "f2"; "f3"; "f4"]; ["f5"]]
                  "http://localhost:8000/api/dataset/3/upload" world0
                    ltac:(discriminate) eq_refl eq_refl eq_refl (fun _ _ => eq_refl))).
  - vm_compute. reflexivity.
Defined.

Lemma nothing_to_upload_witness :
  progress sample_clock (world0, mkStatus 0 0 0 0)
  = (Raise ZeroDivisionError, (world0, mkStatus 0 0 0 0)) /\
  bulk_upload_files net_down sample_clock sample_fs sample_upload sample_resolve
                    sample_api (AInt 3) [] ANone ANone ANone None world0
  = (Ok [], mkWorld [] [] 1).
Proof.
  destruct (nothing_to_upload net_down sample_clock sample_fs sample_upload sample_resolve
              sample_api (AInt 3) ANone ANone ANone None [] world0) as (H1 & H2).
  split.
  - apply H1. reflexivity.
  - apply H2. reflexivity.
Defined.

(* ------------------------------------------------------------------ *)
(** ** [upload_file] and the read calls *)

Lemma contains_lstrip (c d : ascii) (s : string) :
  contains c s = false -> contains c (lstrip d s) = false.
Proof.
  induction s as [|a s IH]; [reflexivity|].
  intros H. simpl. destruct (Ascii.eqb a d); [|exact H].
  simpl in H. apply orb_false_iff in H. now apply IH.
Qed.

Lemma contains_rstrip (c d : ascii) (s : string) :
  contains c s = false -> contains c (rstrip d s) = false.
Proof.
  induction s as [|a s IH]; [reflexivity|].
  intros H. simpl in H. apply orb_false_iff in H. destruct H as (Ha & Hs).
  simpl. specialize (IH Hs). destruct (rstrip d s) eqn:E.
  - destruct (Ascii.eqb a d); [reflexivity|]. simpl. now rewrite Ha.
  - change (contains c (String a (String a0 s0)))
      with (Ascii.eqb a c || contains c (String a0 s0)).
    now rewrite Ha, IH.
Qed.

Lemma contains_strip (c d : ascii) (s : string) :
  contains c s = false -> contains c (strip d s) = false.
Proof. intros H. unfold strip. now apply contains_rstrip, contains_lstrip. Qed.

Lemma rstrip_absent (d : ascii) (s : string) :
  contains d s = false -> rstrip d s = s.
Proof.
  induction s as [|a s IH]; [reflexivity|].
  intros H. simpl in H. apply orb_false_iff in H. destruct H as (Ha & Hs).
  simpl. rewrite (IH Hs). destruct s; [now rewrite Ha | reflexivity].
Qed.

Lemma strip_absent (d : ascii) (s : string) :
  contains d s = false -> strip d s = s.
Proof.
  intros H. unfold strip.
  assert (E : lstrip d s = s).
  { destruct s as [|a s]; [reflexivity|]. simpl in *.
    apply orb_false_iff in H. destruct H as (Ha & _). now rewrite Ha. }
  rewrite E. now apply rstrip_absent.
Qed.

(** A character of the decimal form of an integer. *)
Lemma uint_chars (d : Decimal.uint) :
  string_forall (fun c => in_range 48 57 c) (NilEmpty.string_of_uint d) = true.
Proof. induction d; simpl; auto. Qed.

Lemma str_of_int_chars (n : Z) :
  string_forall (fun c => in_range 48 57 c || Ascii.eqb c "-") (str_of_int n) = true.
Proof.
  assert (H : forall d, string_forall (fun c => in_range 48 57 c || Ascii.eqb c "-")
                                      (NilEmpty.string_of_uint d) = true).
  { induction d; simpl; auto. }
  unfold str_of_int, NilZero.string_of_int, NilZero.string_of_uint.
  destruct (Z.to_int n) as [d|d]; destruct d; try reflexivity;
    try apply (H (Decimal.D0 _)); try apply (H (Decimal.D1 _)); try apply (H (Decimal.D2 _));
    try apply (H (Decimal.D3 _)); try apply (H (Decimal.D4 _)); try apply (H (Decimal.D5 _));
    try apply (H (Decimal.D6 _)); try apply (H (Decimal.D7 _)); try apply (H (Decimal.D8 _));
    try apply (H (Decimal.D9 _));
    simpl; rewrite ?H; reflexivity.
Qed.

Lemma str_of_int_plain (n : Z) (c : ascii) :
  In c ["/"; "?"]%char -> contains c (str_of_int n) = false.
Proof.
  intros Hin. apply (string_forall_contains _ _ _ (str_of_int_chars n)).
  simpl in Hin. destruct Hin as [<-|[<-|[]]]; reflexivity.
Qed.

Section CallsMore.

Variable network : list Request -> Request -> net_result.
Variable clock : nat -> Z.
Variable fs : string -> option Z.
Variable backend_dataset_upload : atom -> atom.
Variable backend_v1_datasets : atom.
Variable backend_v1_sdk_dataset_images : atom -> atom.
Variable backend_v1_dataset_images : atom -> atom.
Variable backend_annotation_set : atom -> atom.
Variable backend_v1_sdk_images : atom.
Variable backend_v1_search : atom.
Variable self : BaseAPI.

(** X20: [upload_file] hands to [requests] what [upload_files] hands over
    for the batch of that one file with no annotation set and no class
    encoding, and returns what that batch returns; unlike the batch it
    prints nothing, whatever the status of the answer, and does not read
    the clock. *)
Theorem upload_file_as_batch
        (dataset_id annotation_task folder_id : atom) (path : string)
        (w : World) (st : UploadStatus) :
  let one := upload_file network fs backend_dataset_upload self dataset_id path
                         annotation_task folder_id w in
  let batch := upload_files network clock fs backend_dataset_upload self dataset_id [path]
                            annotation_task folder_id ANone None (w, st) in
  sent (snd one) = sent (fst (snd batch)) /\
  stdout (snd one) = stdout w /\
  reads (snd one) = reads w /\
  (forall j, fst batch = Ok j -> fst one = Ok j).
Proof.
  cbv zeta.
  assert (Hurl : url self (backend_dataset_upload dataset_id) []
                     [("folder_id", QAtom folder_id); ("annotation_set_id", QAtom ANone)]
                 = url self (backend_dataset_upload dataset_id) []
                       [("folder_id", QAtom folder_id)]).
  { unfold url.
    apply (build_url_param_drop _ [("folder_id", QAtom folder_id)] [] "annotation_set_id");
      [discriminate | reflexivity]. }
  destruct (fs path) as [n|] eqn:Epath.
  2:{ unfold upload_file, upload_files, bind, lift_res. simpl. unfold open_rb.
      rewrite Epath. simpl. repeat split. discriminate. }
  assert (Hex : all_exist fs [path]) by (constructor; [congruence | constructor]).
  destruct (url self (backend_dataset_upload dataset_id) [] [("folder_id", QAtom folder_id)])
    as [u|e] eqn:Eu.
  2:{ unfold upload_file, upload_files, bind, lift_res. simpl. unfold open_rb.
      rewrite Epath. simpl. rewrite Hurl, Eu. simpl. repeat split. discriminate. }
  destruct (json_is_none (token self)) eqn:Etok.
  { assert (Htok : token self = JNull) by (destruct (token self); try discriminate; reflexivity).
    unfold upload_file, upload_files, bind, lift_res. simpl. unfold open_rb.
    rewrite Epath. simpl. rewrite Hurl, Eu. unfold on_fst. simpl.
    rewrite !(post_without_token network _ _ _ _ Htok). simpl. repeat split. discriminate. }
  assert (Htok : token self <> JNull) by (intros E; rewrite E in Etok; discriminate).
  assert (Hone : upload_file network fs backend_dataset_upload self dataset_id path
                             annotation_task folder_id w
                 = match network (sent w)
                                 (mkRequest POST u (Authorization (token self))
                                            (Multipart [path] (upload_data annotation_task None)))
                   with
                   | Refused =>
                       (Raise ConnectionError,
                        mkWorld (sent w ++ [mkRequest POST u (Authorization (token self))
                                              (Multipart [path] (upload_data annotation_task None))])
                                (stdout w) (reads w))
                   | Answered r =>
                       (resp_json r,
                        mkWorld (sent w ++ [mkRequest POST u (Authorization (token self))
                                              (Multipart [path] (upload_data annotation_task None))])
                                (stdout w) (reads w))
                   end).
  { unfold upload_file, bind, lift_res, open_rb. rewrite Epath, Eu.
    rewrite (authenticated_post _ _ _ _ _ Htok). unfold requests_send, upload_data.
    destruct (network _ _); reflexivity. }
  rewrite Hone.
  destruct (network (sent w) _) as [|r] eqn:Enet.
  - rewrite (upload_refused network clock fs backend_dataset_upload self dataset_id
               annotation_task folder_id ANone None [path] u w st Htok Hex
               Hurl Enet).
    simpl. repeat split. discriminate.
  - rewrite (upload_files_answered network clock fs backend_dataset_upload self dataset_id
               annotation_task folder_id ANone None [path] u r w st Htok Hex
               Hurl Enet).
    cbv zeta.
    match goal with
    | |- context [progress clock ?x] => pose proof (progress_sent clock x) as Hs
    end.
    destruct (progress clock _) as [[[]|e] ws1]; simpl in *;
      (split; [now rewrite Hs|]); repeat split; try discriminate.
    intros j Hj. exact Hj.
Qed.

(** The pattern of the read calls: build the URL, [get], then use the
    answer. *)
Lemma read_without_token {A} (ur : res string) (k : Response -> M World A) (w : World) :
  token self = JNull ->
  exists e, (do u <- lift_res ur ; do r <- get network self u ; k r)%M w = (Raise e, w).
Proof.
  intros Htok. unfold bind, lift_res. destruct ur as [u|e]; [|eauto].
  rewrite (get_without_token network _ _ _ Htok). eauto.
Qed.

(** X21: on a client without a token the read calls send nothing: each of
    them raises and leaves the world as it was. *)
Theorem reads_need_token (w : World) :
  token self = JNull ->
  (exists e, list_datasets network backend_v1_datasets self w = (Raise e, w)) /\
  (forall dataset_id limit offset,
      exists e, list_dataset_images network backend_v1_sdk_dataset_images self dataset_id
                                    limit offset w = (Raise e, w)) /\
  (forall dataset_id limit,
      exists e, list_dataset_contents network backend_v1_dataset_images self dataset_id
                                      limit w = (Raise e, w)) /\
  (forall id, exists e, get_dataset network backend_v1_datasets self id w = (Raise e, w)) /\
  (forall id, exists e, get_image network backend_v1_sdk_images self id w = (Raise e, w)) /\
  (forall id,
      exists e, list_annotation_set_classes network backend_annotation_set self id w
                = (Raise e, w)) /\
  (forall classes task dataset_id limit,
      exists e, search_images network backend_v1_search self classes task dataset_id limit w
                = (inr (Raised e), w)).
Proof.
  intros Htok. repeat split; intros.
  - now apply read_without_token.
  - now apply read_without_token.
  - now apply read_without_token.
  - now apply read_without_token.
  - now apply read_without_token.
  - now apply read_without_token.
  - unfold search_images.
    destruct (read_without_token
                (url self backend_v1_search [] (search_params classes task dataset_id limit))
                (fun r => lift_res (resp_json r)) w Htok) as (e & He).
    exists e. rewrite He. reflexivity.
Qed.

(** X22: a limit that is [0], [None] or [False] is not sent:
    [list_dataset_images] and [list_dataset_contents] called with such a
    limit do what they do with [limit=None], so that [limit=0] asks for the
    unlimited list. *)
Theorem falsy_limit_is_no_limit (dataset_id : atom) (limit : atom) (offset : qval) (w : World) :
  limit = AInt 0 \/ limit = ABool false \/ limit = ANone ->
  list_dataset_images network backend_v1_sdk_dataset_images self dataset_id
                      (QAtom limit) offset w
  = list_dataset_images network backend_v1_sdk_dataset_images self dataset_id
                        (QAtom ANone) offset w /\
  list_dataset_contents network backend_v1_dataset_images self dataset_id (QAtom limit) w
  = list_dataset_contents network backend_v1_dataset_images self dataset_id (QAtom ANone) w.
Proof.
  intros Hl.
  assert (Hr : forall k, render_param k (QAtom limit) = render_param k (QAtom ANone))
    by (intros k; destruct Hl as [->|[->| ->]]; reflexivity).
  split.
  - unfold list_dataset_images, url.
    rewrite (build_url_param_congr _ [] [("offset", offset)] "limit" (QAtom limit) (QAtom ANone));
      [reflexivity | discriminate | apply Hr].
  - unfold list_dataset_contents, url.
    rewrite (build_url_param_congr _ [] [] "limit" (QAtom limit) (QAtom ANone));
      [reflexivity | discriminate | apply Hr].
Qed.

End CallsMore.

Lemma reads_need_token_witness :
  list_datasets net_down sample_datasets anonymous_api world0
  = (Raise (Exception (JStr "Not authenticated")), world0).
Proof.
  destruct (proj1 (reads_need_token net_down sample_datasets sample_images sample_images
                     sample_annotation_set sample_datasets sample_search anonymous_api world0
                     eq_refl)) as (e & He).
  rewrite He. vm_compute in He. inversion He. reflexivity.
Defined.

Lemma falsy_limit_is_no_limit_witness :
  list_dataset_images (net_const resp_done) sample_images sample_api (AInt 3)
                      (QAtom (AInt 0)) (QAtom (AInt 20)) world0
  = list_dataset_images (net_const resp_done) sample_images sample_api (AInt 3)
                        (QAtom ANone) (QAtom (AInt 20)) world0.
Proof.
  apply (proj1 (falsy_limit_is_no_limit (net_const resp_done) sample_images sample_images
                  sample_api (AInt 3) (AInt 0) (QAtom (AInt 20)) world0
                  (or_introl eq_refl))).
Defined.

Lemma upload_file_as_batch_witness :
  fst (upload_file net_first_fails sample_fs sample_upload sample_api (AInt 3) "f1"
                   ANone ANone world0)
  = Ok (JArr [JNum 1]).
Proof.
  apply (proj2 (proj2 (proj2 (upload_file_as_batch net_first_fails sample_clock sample_fs
                                sample_upload sample_api (AInt 3) ANone ANone "f1" world0
                                (mkStatus 1 0 0 0))))).
  vm_compute. reflexivity.
Defined.

Section ReadAnswers.

Variable network : list Request -> Request -> net_result.
Variable backend_v1_datasets : atom.
Variable backend_annotation_set : atom -> atom.
Variable backend_v1_sdk_images : atom.
Variable backend_v1_search : atom.
Variable self : BaseAPI.

Lemma append_assoc3 (a b c : string) : (a ++ b) ++ c = a ++ b ++ c.
Proof. induction a as [|x a IH]; simpl; [reflexivity | now rewrite IH]. Qed.

(** The URL of a resource of a collection, with [tail_slash=True]. *)
Lemma url_by_id (s e : string) (n : Z) :
  server self = AStr s ->
  contains qmark s = false ->
  contains qmark e = false ->
  url self (AStr e) [AInt n] [("tail_slash", QAtom (ABool true))]
  = Ok ((strip slash s ++ "/" ++ strip slash e ++ "/" ++ str_of_int n) ++ "/").
Proof.
  intros Hs Hqs Hqe. unfold url, _build_url. rewrite Hs. simpl filter.
  change (last_item [AStr s; AStr e; AInt n]) with (@Ok atom (AInt n)).
  cbn [res_bind py_str].
  destruct (last_char_ok (str_of_int n) (str_of_int_not_empty n)) as (c & Hc).
  rewrite Hc. cbn [res_bind]. unfold kw_pop. cbn [kw_get String.eqb Ascii.eqb Bool.eqb].
  cbn [kw_del filter fst negb String.eqb Ascii.eqb Bool.eqb render_params flat_map].
  cbn [map py_str join String.concat].
  rewrite (strip_absent slash (str_of_int n)) by (apply str_of_int_plain; now left).
  assert (Hq : contains qmark (strip slash s ++ "/" ++ strip slash e ++ "/" ++ str_of_int n)
               = false).
  { rewrite !contains_append, (contains_strip _ _ _ Hqs), (contains_strip _ _ _ Hqe).
    rewrite (str_of_int_plain n qmark) by (right; now left). reflexivity. }
  rewrite Hq. reflexivity.
Qed.

(** X23: [get_dataset(n)] and [get_image(n)] for an integer [n], on a
    client with a token whose server and endpoint hold no [?], send one GET
    to [<server>/<endpoint>/<n>/], server and endpoint being stripped of
    their outer slashes, and return the parsed body of the answer. *)
Theorem get_by_id_request (s e e' : string) (n : Z) (w : World) :
  server self = AStr s ->
  backend_v1_datasets = AStr e ->
  backend_v1_sdk_images = AStr e' ->
  contains qmark s = false ->
  contains qmark e = false ->
  contains qmark e' = false ->
  token self <> JNull ->
  let fetch u :=
    (do r <- requests_send network (mkRequest GET u (Authorization (token self)) NoPayload) ;
     lift_res (resp_json r))%M w in
  get_dataset network backend_v1_datasets self (AInt n) w
  = fetch ((strip slash s ++ "/" ++ strip slash e ++ "/" ++ str_of_int n) ++ "/") /\
  get_image network backend_v1_sdk_images self (AInt n) w
  = fetch ((strip slash s ++ "/" ++ strip slash e' ++ "/" ++ str_of_int n) ++ "/").
Proof.
  intros Hs He He' Hqs Hqe Hqe' Htok fetch. subst fetch.
  unfold get_dataset, get_image. rewrite He, He'.
  rewrite (url_by_id s e n Hs Hqs Hqe), (url_by_id s e' n Hs Hqs Hqe').
  split; unfold bind, lift_res; rewrite (get_with_token network _ _ _ Htok); reflexivity.
Qed.

(** X24: [list_annotation_set_classes] does not look at the status of the
    answer. When the body is an object it returns its field [classes],
    whatever that is, and the empty list when there is no such field, as
    for the body of an error; when the body is JSON but not an object it
    raises [AttributeError]. *)
Theorem classes_of_answer (id : atom) (u : string) (r : Response) (w : World) :
  token self <> JNull ->
  url self (backend_annotation_set id) [] [] = Ok u ->
  network (sent w) (mkRequest GET u (Authorization (token self)) NoPayload) = Answered r ->
  let w1 := mkWorld (sent w ++ [mkRequest GET u (Authorization (token self)) NoPayload])
                    (stdout w) (reads w) in
  (forall d, resp_body r = Some (JObj d) ->
             list_annotation_set_classes network backend_annotation_set self id w
             = (Ok (match dict_find "classes" d with Some v => v | None => JArr [] end), w1)) /\
  (forall j, resp_body r = Some j -> (forall d, j <> JObj d) ->
             list_annotation_set_classes network backend_annotation_set self id w
             = (Raise AttributeError, w1)).
Proof.
  intros Htok Hu Hnet w1. unfold list_annotation_set_classes, bind, lift_res.
  rewrite Hu, (get_with_token network _ _ _ Htok). unfold requests_send. rewrite Hnet.
  fold w1. unfold resp_json. split.
  - intros d Hbody. rewrite Hbody. reflexivity.
  - intros j Hbody Hj. rewrite Hbody. destruct j; try reflexivity.
    exfalso. exact (Hj d eq_refl).
Qed.

Lemma search_params_filter (classes task dataset_id limit : qval) :
  search_params classes task dataset_id limit
  = filter (fun e => truthy (snd e))
           [("tasks", task); ("classes", classes); ("dataset_id", dataset_id); ("limit", limit)].
Proof.
  unfold search_params. simpl.
  destruct (truthy task), (truthy classes), (truthy dataset_id), (truthy limit); reflexivity.
Qed.

(** X25: the filters of [search_images]. A filter that is falsy ([None],
    [0], [''], an empty list) is not sent, so a search with only such
    filters is the search without filters; and the classes given as a list
    of names without commas give the search that their comma-joined string
    gives, unless that string is empty while the list is not. *)
Theorem search_filters (classes task dataset_id limit : qval) (w : World) :
  (truthy classes = false -> truthy task = false ->
   truthy dataset_id = false -> truthy limit = false ->
   search_images network backend_v1_search self classes task dataset_id limit w
   = search_images network backend_v1_search self
                   (QAtom ANone) (QAtom ANone) (QAtom ANone) (QAtom ANone) w) /\
  (forall l,
      classes = QList l ->
      Forall (fun v => contains comma (py_str v) = false) l ->
      l = [] \/ join "," (map py_str l) <> "" ->
      search_images network backend_v1_search self classes task dataset_id limit w
      = search_images network backend_v1_search self
                      (QAtom (AStr (join "," (map py_str l)))) task dataset_id limit w).
Proof.
  split.
  - intros Hc Ht Hd Hl. unfold search_images. rewrite !search_params_filter. simpl.
    rewrite Hc, Ht, Hd, Hl. reflexivity.
  - intros l -> Hall Hl. unfold search_images. rewrite !search_params_filter.
    destruct Hl as [->|Hne]; [reflexivity|].
    assert (Hlist : truthy (QList l) = true).
    { destruct l; [|reflexivity]. simpl in Hne. congruence. }
    assert (Hstr : truthy (QAtom (AStr (join "," (map py_str l)))) = true).
    { simpl. destruct (String.eqb_spec (join "," (map py_str l)) ""); [contradiction|reflexivity]. }
    cbn [filter snd]. rewrite Hlist, Hstr. unfold url.
    set (kw1 := if truthy task then [("tasks", task)] else []).
    set (kw2 := filter (fun e : string * qval => truthy (snd e))
                       [("dataset_id", dataset_id); ("limit", limit)]).
    assert (E : forall v,
               (if truthy task then ("tasks", task) :: ("classes", v) :: kw2
                else ("classes", v) :: kw2) = (kw1 ++ ("classes", v) :: kw2)%list).
    { intros v. subst kw1. destruct (truthy task); reflexivity. }
    rewrite !E.
    rewrite (build_url_param_congr _ kw1 kw2 "classes" (QList l)
               (QAtom (AStr (join "," (map py_str l)))));
      [reflexivity | discriminate | now apply render_list_as_string].
Qed.

(** X26: what [search_images] returns for an answer, whatever its status:
    the field [results] of a body that is an object; [KeyError] when the
    object has no such field; [TypeError] when the body is JSON but not an
    object; the error of [r.json()] when it is not JSON. *)
Theorem search_results (classes task dataset_id limit : qval) (u : string) (r : Response)
        (w : World) :
  token self <> JNull ->
  url self backend_v1_search [] (search_params classes task dataset_id limit) = Ok u ->
  network (sent w) (mkRequest GET u (Authorization (token self)) NoPayload) = Answered r ->
  let w1 := mkWorld (sent w ++ [mkRequest GET u (Authorization (token self)) NoPayload])
                    (stdout w) (reads w) in
  (forall d v, resp_body r = Some (JObj d) -> dict_find "results" d = Some v ->
               search_images network backend_v1_search self classes task dataset_id limit w
               = (inl v, w1)) /\
  (forall d, resp_body r = Some (JObj d) -> dict_find "results" d = None ->
             search_images network backend_v1_search self classes task dataset_id limit w
             = (inr (KeyError "results"), w1)) /\
  (forall j, resp_body r = Some j -> (forall d, j <> JObj d) ->
             search_images network backend_v1_search self classes task dataset_id limit w
             = (inr TypeError, w1)) /\
  (resp_body r = None ->
   search_images network backend_v1_search self classes task dataset_id limit w
   = (inr (Raised JSONDecodeError), w1)).
Proof.
  intros Htok Hu Hnet w1. unfold search_images, bind, lift_res.
  rewrite Hu, (get_with_token network _ _ _ Htok). unfold requests_send. rewrite Hnet.
  fold w1. unfold resp_json. repeat split.
  - intros d v Hbody Hf. rewrite Hbody. simpl. now rewrite Hf.
  - intros d Hbody Hf. rewrite Hbody. simpl. now rewrite Hf.
  - intros j Hbody Hj. rewrite Hbody. destruct j; try reflexivity.
    exfalso. exact (Hj d eq_refl).
  - intros Hbody. rewrite Hbody. reflexivity.
Qed.

End ReadAnswers.

Lemma get_by_id_request_witness :
  get_dataset (net_const resp_done) sample_datasets sample_api (AInt 12) world0
  = (Ok (JArr [JNum 2]),
     mkWorld [mkRequest GET "http://localhost:8000/api/v1/ui/datasets/12/"
                        (Authorization (JStr "abc")) NoPayload] [] 0).
Proof.
  rewrite (proj1 (get_by_id_request (net_const resp_done) sample_datasets sample_datasets
                    sample_api "http://localhost:8000" "/api/v1/ui/datasets"
                    "/api/v1/ui/datasets" 12 world0 eq_refl eq_refl eq_refl eq_refl eq_refl
                    eq_refl ltac:(discriminate))).
  vm_compute. reflexivity.
Defined.

Lemma classes_of_answer_witness :
  fst (list_annotation_set_classes (net_const resp_no_classes) sample_annotation_set
         sample_api (AInt 4) world0)
  = Ok (JArr []).
Proof.
  rewrite (proj1 (classes_of_answer (net_const resp_no_classes) sample_annotation_set
                    sample_api (AInt 4) "http://localhost:8000/api/annotation-set/4"
                    resp_no_classes world0 ltac:(discriminate) eq_refl eq_refl)
                 [("id", JNum 4)] eq_refl).
  reflexivity.
Defined.

Lemma search_filters_witness :
  search_images (net_const resp_results) sample_search sample_api
                (QList [AStr "cat"; AStr "dog"]) (QAtom ANone) (QAtom (AInt 0)) (QAtom ANone)
                world0
  = search_images (net_const resp_results) sample_search sample_api
                  (QAtom (AStr "cat,dog")) (QAtom ANone) (QAtom (AInt 0)) (QAtom ANone) world0.
Proof.
  apply (proj2 (search_filters (net_const resp_results) sample_search sample_api
                  (QList [AStr "cat"; AStr "dog"]) (QAtom ANone) (QAtom (AInt 0))
                  (QAtom ANone) world0)
               [AStr "cat"; AStr "dog"] eq_refl).
  - repeat (constructor; [reflexivity|]). constructor.
  - right. discriminate.
Defined.

Lemma search_results_witness :
  fst (search_images (net_const resp_results) sample_search sample_api
         (QAtom (AStr "cat")) (QAtom ANone) (QAtom ANone) (QAtom (AInt 5)) world0)
  = inl (JArr [JNum 7]) /\
  fst (search_images (net_const resp_no_classes) sample_search sample_api
         (QAtom (AStr "cat")) (QAtom ANone) (QAtom ANone) (QAtom (AInt 5)) world0)
  = inr (KeyError "results").
Proof.
  split.
  - rewrite (proj1 (search_results (net_const resp_results) sample_search sample_api
                      (QAtom (AStr "cat")) (QAtom ANone) (QAtom ANone) (QAtom (AInt 5))
                      "http://localhost:8000/api/v1/sdk/search/?classes=cat&limit=5"
                      resp_results world0 ltac:(discriminate) eq_refl eq_refl)
                   [("results", JArr [JNum 7])] (JArr [JNum 7]) eq_refl eq_refl).
    reflexivity.
  - rewrite (proj1 (proj2 (search_results (net_const resp_no_classes) sample_search sample_api
                             (QAtom (AStr "cat")) (QAtom ANone) (QAtom ANone) (QAtom (AInt 5))
                             "http://localhost:8000/api/v1/sdk/search/?classes=cat&limit=5"
                             resp_no_classes world0 ltac:(discriminate) eq_refl eq_refl))
                   [("id", JNum 4)] eq_refl eq_refl).
    reflexivity.
Defined.
